(** * A Restricted Boltzmann Machine trained by CD-1: the [RBM] class of
      [RBF_note.ipynb], embedded and verified.

    The development follows the notebook cell that defines [class RBM]:
    - numbers: numpy's float64, idealised (see [npfloat]);
    - arrays: two-dimensional [ndarray]s and one-dimensional [vec]s;
    - the Python store: objects that are reached through references (the
      caller's data array, the instance, its weight matrix) live in a heap;
    - effects: a state-and-exception monad [M] over the heap, the module-level
      generator [np.random] and the standard output;
    - randomness: a generator is the stream of its draws, so that every
      statement holds for any stream;
    - sizes and counts are natural numbers (numpy rejects negative ones);
      [max_epochs] is an integer, as [range] takes any. *)

From Stdlib Require Import Reals Lra Lia List ZArith Bool.
From Stdlib Require Floats.
From stdpp Require Import base gmap.
Import ListNotations.

Local Open Scope R_scope.

(** ** Numbers

    A float64 is modelled as an exact real, or one of the IEEE special values.
    Finite arithmetic is exact: rounding and overflow are left out.  The special
    values are kept because the code reaches them through its structure
    (a division by the number of examples) and not through precision. *)

Inductive npfloat : Type :=
  | Fin (r : R)
  | PInf
  | NInf
  | NaN.

Definition is_finite (x : npfloat) : Prop :=
  match x with Fin _ => True | _ => False end.

Inductive sign : Type := Neg | Zero | Pos.

Definition Rsign (r : R) : sign :=
  match total_order_T r 0 with
  | inleft (left _) => Neg
  | inleft (right _) => Zero
  | inright _ => Pos
  end.

Definition fneg (x : npfloat) : npfloat :=
  match x with
  | Fin r => Fin (- r)
  | PInf => NInf
  | NInf => PInf
  | NaN => NaN
  end.

Definition fadd (x y : npfloat) : npfloat :=
  match x, y with
  | NaN, _ | _, NaN => NaN
  | Fin a, Fin b => Fin (a + b)
  | PInf, NInf | NInf, PInf => NaN
  | PInf, _ | _, PInf => PInf
  | NInf, _ | _, NInf => NInf
  end.

Definition fsub (x y : npfloat) : npfloat := fadd x (fneg y).

(** The product of an infinity and a finite number: the sign decides, and
    [inf * 0] is NaN. *)
Definition inf_times (plus : bool) (s : sign) : npfloat :=
  match s with
  | Zero => NaN
  | Pos => if plus then PInf else NInf
  | Neg => if plus then NInf else PInf
  end.

Definition fmul (x y : npfloat) : npfloat :=
  match x, y with
  | NaN, _ | _, NaN => NaN
  | Fin a, Fin b => Fin (a * b)
  | PInf, Fin b => inf_times true (Rsign b)
  | NInf, Fin b => inf_times false (Rsign b)
  | Fin a, PInf => inf_times true (Rsign a)
  | Fin a, NInf => inf_times false (Rsign a)
  | PInf, PInf | NInf, NInf => PInf
  | PInf, NInf | NInf, PInf => NInf
  end.

(** numpy's true division: a zero divisor gives an infinity or NaN (and a
    warning), never an exception.  A zero divisor counts as [+0.0]. *)
Definition fdiv (x y : npfloat) : npfloat :=
  match x, y with
  | NaN, _ | _, NaN => NaN
  | Fin a, Fin b =>
      match Rsign b with
      | Zero => match Rsign a with
                | Zero => NaN
                | Pos => PInf
                | Neg => NInf
                end
      | _ => Fin (a / b)
      end
  | Fin _, PInf | Fin _, NInf => Fin 0
  | PInf, Fin b => match Rsign b with Neg => NInf | _ => PInf end
  | NInf, Fin b => match Rsign b with Neg => PInf | _ => NInf end
  | _, _ => NaN
  end.

Definition fexp (x : npfloat) : npfloat :=
  match x with
  | Fin r => Fin (exp r)
  | PInf => PInf
  | NInf => Fin 0
  | NaN => NaN
  end.

Definition fsqrt (x : npfloat) : npfloat :=
  match x with
  | Fin r => match Rsign r with Neg => NaN | _ => Fin (sqrt r) end
  | PInf => PInf
  | _ => NaN
  end.

(** [x > y]; every comparison with NaN is false. *)
Definition fgt (x y : npfloat) : bool :=
  match x, y with
  | NaN, _ | _, NaN => false
  | Fin a, Fin b => if Rlt_dec b a then true else false
  | PInf, PInf => false
  | PInf, _ => true
  | _, NInf => match x with NInf => false | _ => true end
  | _, _ => false
  end.

(** A boolean stored into a float array, or used in [np.dot]. *)
Definition of_bool (b : bool) : npfloat := if b then Fin 1 else Fin 0.

Definition of_nat (n : nat) : npfloat := Fin (INR n).

(** [RBM._logistic] on one entry: [1.0 / (1 + np.exp(-x))].  The module-level
    [logistic] of the notebook has the same body. *)
Definition logistic1 (x : npfloat) : npfloat :=
  fdiv (Fin 1) (fadd (Fin 1) (fexp (fneg x))).

(** The same function on the binary64 numbers of the standard library, with
    their rounding.  [np.exp] is numpy's and not the notebook's: it is a
    parameter.  Only the claim on the range of the logistic function is
    decided by rounding, and only it is checked against this rendering. *)
Module Float64.
Import PrimFloat.

Definition logistic (np_exp : float -> float) (x : float) : float :=
  (1 / (1 + np_exp (- x)))%float.

(** the binary64 numbers nearest to exp(-40) and exp(-41):
    4.248354255291589e-18 and 1.5628821893349888e-18 *)
Definition exp_m40 : float := 0x1.39792499b1a24p-58%float.
Definition exp_m41 : float := 0x1.cd480a1b7482p-60%float.

End Float64.

(** [sum_{k < n} f k], accumulated from the left. *)
Definition fsum (n : nat) (f : nat -> npfloat) : npfloat :=
  fold_left (fun acc k => fadd acc (f k)) (seq 0 n) (Fin 0).

(** ** Exceptions *)

Inductive exn : Type :=
  | ValueError          (* shapes not aligned, operands not broadcastable *)
  | IndexError          (* index out of bounds *)
  | ZeroDivisionError   (* Python float division by zero *)
  | TypeError.          (* a reference to an object of the wrong kind *)

Inductive outcome (A : Type) : Type :=
  | Ok (a : A)
  | Raise (e : exn).
Arguments Ok {A} a.
Arguments Raise {A} e.

Definition obind {A B} (o : outcome A) (k : A -> outcome B) : outcome B :=
  match o with
  | Ok a => k a
  | Raise e => Raise e
  end.

(** ** Arrays

    A two-dimensional array keeps its column count next to its rows, as
    numpy keeps a shape: an array with no rows still has a width. *)

Abbreviation vec := (list npfloat).

Record ndarray : Type := mk_ndarray { ncols : nat; rows : list vec }.

Definition nrows (a : ndarray) : nat := length (rows a).

Definition shape (a : ndarray) : nat * nat := (nrows a, ncols a).

Definition well_formed (a : ndarray) : Prop :=
  Forall (fun r => length r = ncols a) (rows a).

Definition vget (v : vec) (j : nat) : npfloat := nth j v (Fin 0).

Definition get (a : ndarray) (i j : nat) : npfloat :=
  vget (nth i (rows a) []) j.

Definition vtabulate (n : nat) (g : nat -> npfloat) : vec :=
  map g (seq 0 n).

Definition tabulate (r c : nat) (g : nat -> nat -> npfloat) : ndarray :=
  {| ncols := c; rows := map (fun i => vtabulate c (g i)) (seq 0 r) |}.

(** [np.ones((r, c))] *)
Definition np_ones (r c : nat) : ndarray := tabulate r c (fun _ _ => Fin 1).

(** [np.insert(a, 0, v, axis = 1)]: a new array, [a] is not touched. *)
Definition np_insert_col (a : ndarray) (v : npfloat) : ndarray :=
  {| ncols := S (ncols a); rows := map (cons v) (rows a) |}.

(** [np.insert(a, 0, v, axis = 0)] *)
Definition np_insert_row (a : ndarray) (v : npfloat) : ndarray :=
  {| ncols := ncols a; rows := repeat v (ncols a) :: rows a |}.

(** [a.T] *)
Definition np_T (a : ndarray) : ndarray :=
  tabulate (ncols a) (nrows a) (fun i j => get a j i).

(** [np.dot(a, b)] on two matrices; raises when the inner sizes differ. *)
Definition np_dot (a b : ndarray) : outcome ndarray :=
  if (ncols a =? nrows b)%nat
  then Ok (tabulate (nrows a) (ncols b)
             (fun i j => fsum (ncols a) (fun k => fmul (get a i k) (get b k j))))
  else Raise ValueError.

(** [np.dot(v, b)] on a vector and a matrix. *)
Definition np_dot1 (v : vec) (b : ndarray) : outcome vec :=
  if (length v =? nrows b)%nat
  then Ok (vtabulate (ncols b)
             (fun j => fsum (length v) (fun k => fmul (vget v k) (get b k j))))
  else Raise ValueError.

Definition nd_map (f : npfloat -> npfloat) (a : ndarray) : ndarray :=
  {| ncols := ncols a; rows := map (map f) (rows a) |}.

(** [self._logistic(x)] on a matrix and on a vector. *)
Definition _logistic (x : ndarray) : ndarray := nd_map logistic1 x.
Definition _logistic1 (x : vec) : vec := map logistic1 x.

(** [logistic(z)], the function of the cell "From scratch", has the body of
    [_logistic]. *)
Definition logistic (z : ndarray) : ndarray := nd_map logistic1 z.

(** [a[:,0] = v] *)
Definition set_col0 (a : ndarray) (v : npfloat) : outcome ndarray :=
  if (ncols a =? 0)%nat then Raise IndexError
  else Ok {| ncols := ncols a; rows := map (fun r => <[0%nat := v]> r) (rows a) |}.

(** [a[:,1:]] *)
Definition drop_col0 (a : ndarray) : ndarray :=
  {| ncols := pred (ncols a); rows := map (@tl npfloat) (rows a) |}.

(** Broadcasting of one dimension: equal sizes, or one of them is 1. *)
Definition bdim (m n : nat) : option nat :=
  if (m =? n)%nat then Some m
  else if (m =? 1)%nat then Some n
  else if (n =? 1)%nat then Some m
  else None.

Definition bidx (m i : nat) : nat := if (m =? 1)%nat then 0%nat else i.

(** An elementwise binary operation with numpy's broadcasting of shapes. *)
Definition broadcast2 (f : npfloat -> npfloat -> npfloat) (a b : ndarray)
  : outcome ndarray :=
  match bdim (nrows a) (nrows b), bdim (ncols a) (ncols b) with
  | Some r, Some c =>
      Ok (tabulate r c (fun i j =>
            f (get a (bidx (nrows a) i) (bidx (ncols a) j))
              (get b (bidx (nrows b) i) (bidx (ncols b) j))))
  | _, _ => Raise ValueError
  end.

Definition broadcast1 (f : npfloat -> npfloat -> npfloat) (u v : vec)
  : outcome vec :=
  match bdim (length u) (length v) with
  | Some n =>
      Ok (vtabulate n (fun i =>
            f (vget u (bidx (length u) i)) (vget v (bidx (length v) i))))
  | None => Raise ValueError
  end.

(** [a > b] as a boolean array. *)
Definition np_greater (a b : ndarray) : outcome ndarray :=
  broadcast2 (fun x y => of_bool (fgt x y)) a b.
Definition np_greater1 (u v : vec) : outcome vec :=
  broadcast1 (fun x y => of_bool (fgt x y)) u v.

(** [a - b] *)
Definition np_subtract (a b : ndarray) : outcome ndarray := broadcast2 fsub a b.

(** [a += b]: the sum must have the shape of [a]. *)
Definition np_iadd (a b : ndarray) : outcome ndarray :=
  obind (broadcast2 fadd a b) (fun s =>
    if ((nrows s =? nrows a) && (ncols s =? ncols a))%nat then Ok s
    else Raise ValueError).

(** [np.sum(a)] *)
Definition np_sum (a : ndarray) : npfloat :=
  fold_left fadd (concat (rows a)) (Fin 0).

(** A vector stored into a slice of [n] cells. *)
Definition broadcast_to (n : nat) (v : vec) : outcome vec :=
  if (length v =? n)%nat then Ok v
  else if (length v =? 1)%nat then Ok (repeat (vget v 0) n)
  else Raise ValueError.

(** [a[i,:]] *)
Definition get_row (a : ndarray) (i : nat) : outcome vec :=
  if (i <? nrows a)%nat then Ok (nth i (rows a) []) else Raise IndexError.

(** [a[i,:] = v] *)
Definition set_row (a : ndarray) (i : nat) (v : vec) : outcome ndarray :=
  if (i <? nrows a)%nat
  then obind (broadcast_to (ncols a) v) (fun v' =>
         Ok {| ncols := ncols a; rows := <[i := v']> (rows a) |})
  else Raise IndexError.

(** [a[i,1:] = v] *)
Definition set_row_tail (a : ndarray) (i : nat) (v : vec) : outcome ndarray :=
  if (i <? nrows a)%nat
  then obind (broadcast_to (pred (ncols a)) v) (fun v' =>
         Ok {| ncols := ncols a;
               rows := <[i := firstn 1 (nth i (rows a) []) ++ v']> (rows a) |})
  else Raise IndexError.

(** [v[0] = x] *)
Definition set_item0 (v : vec) (x : npfloat) : outcome vec :=
  match v with
  | [] => Raise IndexError
  | _ :: t => Ok (x :: t)
  end.

(** An in-place elementwise update [a op= b], or [a[:,:] = b]: the operand is
    broadcast, and the result must have the shape of [a]. *)
Definition np_assign (a b : ndarray) : outcome ndarray :=
  obind (broadcast2 (fun _ y => y) a b) (fun s =>
    if ((nrows s =? nrows a) && (ncols s =? ncols a))%nat then Ok s
    else Raise ValueError).

(** Python's [x / y] on two floats. *)
Definition py_truediv (x y : npfloat) : outcome npfloat :=
  match y with
  | Fin b => match Rsign b with
             | Zero => Raise ZeroDivisionError
             | _ => Ok (fdiv x y)
             end
  | _ => Ok (fdiv x y)
  end.

(** ** The store and the monad of effects *)

Definition loc : Type := positive.

(** The attributes of an [RBM] instance; [weights] is a reference. *)
Record RBM : Type := mk_RBM {
  num_hidden : nat;
  num_visible : nat;
  debug_print : bool;
  weights : loc
}.

Inductive obj : Type :=
  | Array (a : ndarray)
  | Instance (r : RBM).

(** A generator is the stream of the uniform draws of [0, 1) it has yet to
    produce. *)
Definition generator : Type := nat -> R.

Record world : Type := mk_world {
  heap : gmap loc obj;
  np_random : generator;             (* the module-level [np.random] *)
  stdout : list (nat * npfloat)      (* the lines printed: epoch and error *)
}.

Definition M (A : Type) : Type := world -> outcome A * world.

Definition ret {A} (a : A) : M A := fun w => (Ok a, w).

Definition bind {A B} (m : M A) (k : A -> M B) : M B :=
  fun w => match m w with
           | (Ok a, w') => k a w'
           | (Raise e, w') => (Raise e, w')
           end.

Definition lift {A} (o : outcome A) : M A := fun w => (o, w).

Notation "x <- m ;; k" := (bind m (fun x => k))
  (at level 100, m at next level, right associativity).
Notation "m ;;; k" := (bind m (fun _ => k))
  (at level 100, right associativity).

Definition get_array (l : loc) : M ndarray :=
  fun w => match heap w !! l with
           | Some (Array a) => (Ok a, w)
           | _ => (Raise TypeError, w)
           end.

Definition get_instance (l : loc) : M RBM :=
  fun w => match heap w !! l with
           | Some (Instance r) => (Ok r, w)
           | _ => (Raise TypeError, w)
           end.

(** The array at [l] is overwritten in place. *)
Definition set_array (l : loc) (a : ndarray) : M unit :=
  fun w => (Ok tt, {| heap := <[l := Array a]> (heap w);
                      np_random := np_random w;
                      stdout := stdout w |}).

Definition alloc (o : obj) : M loc :=
  fun w => let l := fresh (dom (heap w)) in
           (Ok l, {| heap := <[l := o]> (heap w);
                     np_random := np_random w;
                     stdout := stdout w |}).

Definition print (epoch : nat) (error : npfloat) : M unit :=
  fun w => (Ok tt, {| heap := heap w;
                      np_random := np_random w;
                      stdout := stdout w ++ [(epoch, error)] |}).

(** [g.rand(r, c)]: [r * c] draws, row by row. *)
Definition draw2 (g : generator) (r c : nat) : ndarray :=
  tabulate r c (fun i j => Fin (g (i * c + j)%nat)).

Definition draw1 (g : generator) (n : nat) : vec :=
  vtabulate n (fun i => Fin (g i)).

Definition advance (g : generator) (n : nat) : generator :=
  fun k => g (n + k)%nat.

(** [np.random.rand(r, c)] *)
Definition np_random_rand (r c : nat) : M ndarray :=
  fun w => (Ok (draw2 (np_random w) r c),
            {| heap := heap w;
               np_random := advance (np_random w) (r * c);
               stdout := stdout w |}).

(** [np.random.rand(n)] *)
Definition np_random_rand1 (n : nat) : M vec :=
  fun w => (Ok (draw1 (np_random w) n),
            {| heap := heap w;
               np_random := advance (np_random w) n;
               stdout := stdout w |}).

(** [for i in range(start, start + count)], with the local variables that
    the body rebinds passed along as [s]. *)
Fixpoint for_range {S : Type} (start count : nat) (body : nat -> S -> M S) (s : S)
  : M S :=
  match count with
  | O => ret s
  | Datatypes.S n => s' <- body start s ;; for_range (Datatypes.S start) n body s'
  end.

(** [self.weights], [self.num_hidden], ... *)
Definition attr_weights (self : loc) : M ndarray :=
  r <- get_instance self ;; get_array (weights r).

Definition attr {A} (field : RBM -> A) (self : loc) : M A :=
  r <- get_instance self ;; ret (field r).

(** ** The class [RBM] *)

Section Constructor.

(** [np.random.RandomState(seed)]: numpy's Mersenne Twister is not part of
    the notebook; the stream it yields for a seed is a parameter. *)
Variable RandomState : Z -> generator.

(** [g.uniform(low, high, size = (r, c))] is [low + (high - low) * u] for
    the draws [u] of [g]. *)
Definition uniform (g : generator) (low high : npfloat) (r c : nat) : ndarray :=
  tabulate r c (fun i j =>
    fadd low (fmul (fsub high low) (Fin (g (i * c + j)%nat)))).

(** [RBM(num_visible, num_hidden)]: the new instance is returned. *)
Definition __init__ (num_visible num_hidden : nat) : M loc :=
  let np_rng := RandomState 1234 in
  q <- lift (py_truediv (Fin 6) (of_nat (num_hidden + num_visible))) ;;
  let low := fmul (Fin (- (1 / 10))) (fsqrt q) in
  q <- lift (py_truediv (Fin 6) (of_nat (num_hidden + num_visible))) ;;
  let high := fmul (Fin (1 / 10)) (fsqrt q) in
  let weights := uniform np_rng low high num_visible num_hidden in
  let weights := np_insert_row weights (Fin 0) in
  let weights := np_insert_col weights (Fin 0) in
  w <- alloc (Array weights) ;;
  alloc (Instance {| num_hidden := num_hidden;
                     num_visible := num_visible;
                     debug_print := false;
                     weights := w |}).

End Constructor.

(** One pass of the loop of [train]; [data] is the local array with the bias
    column. *)
Definition train_epoch (self : loc) (data : ndarray) (num_examples : nat)
    (learning_rate : npfloat) (epoch : nat) (_ : unit) : M unit :=
  W <- attr_weights self ;;
  pos_hidden_activations <- lift (np_dot data W) ;;
  let pos_hidden_probs := _logistic pos_hidden_activations in
  pos_hidden_probs <- lift (set_col0 pos_hidden_probs (Fin 1)) ;;
  nh <- attr num_hidden self ;;
  rnd <- np_random_rand num_examples (nh + 1) ;;
  pos_hidden_states <- lift (np_greater pos_hidden_probs rnd) ;;
  pos_associations <- lift (np_dot (np_T data) pos_hidden_probs) ;;
  W <- attr_weights self ;;
  neg_visible_activations <- lift (np_dot pos_hidden_states (np_T W)) ;;
  let neg_visible_probs := _logistic neg_visible_activations in
  neg_visible_probs <- lift (set_col0 neg_visible_probs (Fin 1)) ;;
  W <- attr_weights self ;;
  neg_hidden_activations <- lift (np_dot neg_visible_probs W) ;;
  let neg_hidden_probs := _logistic neg_hidden_activations in
  neg_associations <- lift (np_dot (np_T neg_visible_probs) neg_hidden_probs) ;;
  W <- attr_weights self ;;
  diff <- lift (np_subtract pos_associations neg_associations) ;;
  let update :=
    nd_map (fmul learning_rate)
      (nd_map (fun x => fdiv x (of_nat num_examples)) diff) in
  W' <- lift (np_iadd W update) ;;
  r <- get_instance self ;;
  set_array (weights r) W' ;;;
  d <- lift (np_subtract data neg_visible_probs) ;;
  let error := np_sum (nd_map (fun x => fmul x x) d) in
  dbg <- attr debug_print self ;;
  if dbg : bool then print epoch error else ret tt.

(** [self.train(data, max_epochs, learning_rate)]; [data] is the caller's
    array, passed by reference. *)
Definition train (self : loc) (data : loc) (max_epochs : Z)
    (learning_rate : npfloat) : M unit :=
  d <- get_array data ;;
  let num_examples := nrows d in
  let data := np_insert_col d (Fin 1) in
  for_range 0 (Z.to_nat max_epochs)
    (train_epoch self data num_examples learning_rate) tt.

(** [self.run_visible(data)] *)
Definition run_visible (self : loc) (data : loc) : M ndarray :=
  d <- get_array data ;;
  let num_examples := nrows d in
  nh <- attr num_hidden self ;;
  let hidden_states := np_ones num_examples (nh + 1) in
  let data := np_insert_col d (Fin 1) in
  W <- attr_weights self ;;
  hidden_activations <- lift (np_dot data W) ;;
  let hidden_probs := _logistic hidden_activations in
  nh <- attr num_hidden self ;;
  rnd <- np_random_rand num_examples (nh + 1) ;;
  sampled <- lift (np_greater hidden_probs rnd) ;;
  hidden_states <- lift (np_assign hidden_states sampled) ;;
  let hidden_states := drop_col0 hidden_states in
  ret hidden_states.

(** [self.run_hidden(data)] *)
Definition run_hidden (self : loc) (data : loc) : M ndarray :=
  d <- get_array data ;;
  let num_examples := nrows d in
  nv <- attr num_visible self ;;
  let visible_states := np_ones num_examples (nv + 1) in
  let data := np_insert_col d (Fin 1) in
  W <- attr_weights self ;;
  visible_activations <- lift (np_dot data (np_T W)) ;;
  let visible_probs := _logistic visible_activations in
  nv <- attr num_visible self ;;
  rnd <- np_random_rand num_examples (nv + 1) ;;
  sampled <- lift (np_greater visible_probs rnd) ;;
  visible_states <- lift (np_assign visible_states sampled) ;;
  let visible_states := drop_col0 visible_states in
  ret visible_states.

(** One pass of the loop of [daydream]; [samples] is the local matrix. *)
Definition daydream_step (self : loc) (i : nat) (samples : ndarray) : M ndarray :=
  visible <- lift (get_row samples (i - 1)) ;;
  W <- attr_weights self ;;
  hidden_activations <- lift (np_dot1 visible W) ;;
  let hidden_probs := _logistic1 hidden_activations in
  nh <- attr num_hidden self ;;
  rnd <- np_random_rand1 (nh + 1) ;;
  hidden_states <- lift (np_greater1 hidden_probs rnd) ;;
  hidden_states <- lift (set_item0 hidden_states (Fin 1)) ;;
  W <- attr_weights self ;;
  visible_activations <- lift (np_dot1 hidden_states (np_T W)) ;;
  let visible_probs := _logistic1 visible_activations in
  nv <- attr num_visible self ;;
  rnd <- np_random_rand1 (nv + 1) ;;
  visible_states <- lift (np_greater1 visible_probs rnd) ;;
  lift (set_row samples i visible_states).

(** The local matrix [samples] of [daydream] after the first [passes] passes
    of its loop. *)
Definition daydream_loop (self : loc) (num_samples passes : nat) : M ndarray :=
  nv <- attr num_visible self ;;
  let samples := np_ones num_samples (nv + 1) in
  nv <- attr num_visible self ;;
  rnd <- np_random_rand1 nv ;;
  samples <- lift (set_row_tail samples 0 rnd) ;;
  for_range 1 passes (daydream_step self) samples.

(** [self.daydream(num_samples)]: the loop is [for i in range(1, num_samples)]. *)
Definition daydream (self : loc) (num_samples : nat) : M ndarray :=
  samples <- daydream_loop self num_samples (num_samples - 1) ;;
  ret (drop_col0 samples).

(** * Specification

    The quantities of the specification, written from its words, and the
    predicates the theorems are stated with.  The code above is compared with
    them below. *)

(** ** The CD-1 update, entry by entry

    These definitions follow the description of one epoch of [train] in words:
    each quantity is given by the formula of its entries.  [train_epoch] above
    is the array program of the notebook; the two are compared below. *)

Module CD1.
Section Epoch.

Variables (nv nh : nat).           (* num_visible, num_hidden *)
Variable d : ndarray.              (* the caller's data *)
Variable W : ndarray.              (* the weights before the epoch *)
Variable g : generator.            (* np.random before the epoch *)
Variable learning_rate : npfloat.

Definition num_examples : nat := nrows d.

(** the data with the bias column of ones in front *)
Definition augmented (k m : nat) : npfloat :=
  match m with
  | O => Fin 1
  | S m' => get d k m'
  end.

(** logistic(data . weights), column 0 forced to 1 *)
Definition pos_hidden_probs (k j : nat) : npfloat :=
  if (j =? 0)%nat then Fin 1
  else logistic1 (fsum (S nv) (fun m => fmul (augmented k m) (get W m j))).

(** the hidden states sampled against one uniform draw per cell *)
Definition pos_hidden_states (k j : nat) : npfloat :=
  of_bool (fgt (pos_hidden_probs k j) (Fin (g (k * S nh + j)%nat))).

(** logistic(hidden states . weights^T), column 0 forced to 1 *)
Definition neg_visible_probs (k i : nat) : npfloat :=
  if (i =? 0)%nat then Fin 1
  else logistic1 (fsum (S nh) (fun j => fmul (pos_hidden_states k j) (get W i j))).

(** logistic(reconstruction . weights), no column forced *)
Definition neg_hidden_probs (k j : nat) : npfloat :=
  logistic1 (fsum (S nv) (fun i => fmul (neg_visible_probs k i) (get W i j))).

Definition pos_associations (i j : nat) : npfloat :=
  fsum num_examples (fun k => fmul (augmented k i) (pos_hidden_probs k j)).

Definition neg_associations (i j : nat) : npfloat :=
  fsum num_examples (fun k => fmul (neg_visible_probs k i) (neg_hidden_probs k j)).

(** weights + learning_rate * (pos - neg) / num_examples *)
Definition updated (i j : nat) : npfloat :=
  fadd (get W i j)
    (fmul learning_rate
       (fdiv (fsub (pos_associations i j) (neg_associations i j))
             (of_nat num_examples))).

Definition updated_weights : ndarray := tabulate (S nv) (S nh) updated.

(** the sum of the squared differences between data and reconstruction *)
Definition error : npfloat :=
  np_sum (tabulate num_examples (S nv) (fun k i =>
    let x := fsub (augmented k i) (neg_visible_probs k i) in fmul x x)).

(** np.random after the epoch: one draw per hidden cell was taken *)
Definition generator_after : generator := advance g (num_examples * S nh).

End Epoch.

(** The weights and the generator after [n] epochs. *)
Fixpoint epochs (n nv nh : nat) (d W : ndarray) (g : generator) (lr : npfloat)
  : ndarray * generator :=
  match n with
  | O => (W, g)
  | S n' => epochs n' nv nh d (updated_weights nv nh d W g lr)
              (generator_after nh d g) lr
  end.

(** The lines printed by [n] epochs that start at epoch [start]. *)
Fixpoint log (dbg : bool) (start n nv nh : nat) (d W : ndarray) (g : generator)
    (lr : npfloat) : list (nat * npfloat) :=
  match n with
  | O => []
  | S n' =>
      (if dbg then [(start, error nv nh d W g)] else []) ++
      log dbg (S start) n' nv nh d (updated_weights nv nh d W g lr)
        (generator_after nh d g) lr
  end.

End CD1.

(** The instance at [self] has attributes [r], and its weight matrix [W] is a
    well-formed array of [num_visible + 1] rows and [num_hidden + 1] columns. *)
Definition rbm_at (w : world) (self : loc) (r : RBM) (W : ndarray) : Prop :=
  heap w !! self = Some (Instance r) /\
  heap w !! weights r = Some (Array W) /\
  well_formed W /\
  nrows W = S (num_visible r) /\
  ncols W = S (num_hidden r).

Definition array_at (w : world) (l : loc) (a : ndarray) : Prop :=
  heap w !! l = Some (Array a) /\ well_formed a.

(** Every entry of the array is a finite number. *)
Definition all_finite (a : ndarray) : Prop :=
  Forall (Forall is_finite) (rows a).


Definition is_binary (x : npfloat) : Prop := x = Fin 0 \/ x = Fin 1.

Definition all_binary (a : ndarray) : Prop :=
  Forall (Forall is_binary) (rows a).

(** The sampled units, cell by cell; column 0 is the bias unit. *)
Module Sample.

(** hidden unit [j] of example [k], given the visible units [d] *)
Definition hidden (nv nh : nat) (d W : ndarray) (g : generator) (k j : nat)
  : npfloat :=
  of_bool (fgt (logistic1 (fsum (S nv) (fun m =>
                  fmul (CD1.augmented d k m) (get W m j))))
               (Fin (g (k * S nh + j)%nat))).

(** visible unit [i] of example [k], given the hidden units [d] *)
Definition visible (nv nh : nat) (d W : ndarray) (g : generator) (k i : nat)
  : npfloat :=
  of_bool (fgt (logistic1 (fsum (S nh) (fun m =>
                  fmul (CD1.augmented d k m) (get W i m))))
               (Fin (g (k * S nv + i)%nat))).

End Sample.

(** One step of the chain of [daydream], cell by cell. *)
Module Gibbs.

(** the hidden states sampled from the visible vector, bias forced to 1 *)
Definition hidden_states (nv nh : nat) (W : ndarray) (g : generator)
    (visible : vec) (j : nat) : npfloat :=
  if (j =? 0)%nat then Fin 1
  else of_bool (fgt (logistic1 (fsum (S nv) (fun m =>
                       fmul (vget visible m) (get W m j))))
                    (Fin (g j))).

(** the visible states sampled from those hidden states; no cell is forced *)
Definition visible_states (nv nh : nat) (W : ndarray) (g : generator)
    (visible : vec) (i : nat) : npfloat :=
  of_bool (fgt (logistic1 (fsum (S nh) (fun j =>
                  fmul (hidden_states nv nh W g visible j) (get W i j))))
               (Fin (g (S nh + i)%nat))).

(** the row that the step stores *)
Definition next_row (nv nh : nat) (W : ndarray) (g : generator) (visible : vec)
  : vec :=
  vtabulate (S nv) (visible_states nv nh W g visible).

End Gibbs.

(** What holds of [samples] all along the loop of [daydream]: its shape, its
    row 0, and that the later rows (ones at first, then sampled) are binary. *)
Definition dream_inv (nv n : nat) (row0 : vec) (s : ndarray) : Prop :=
  ncols s = S nv /\
  nrows s = n /\
  well_formed s /\
  nth 0 (rows s) [] = row0 /\
  forall i, (1 <= i)%nat -> (i < n)%nat -> Forall is_binary (nth i (rows s) []).

(** The weights that the constructor builds from the stream [g] of its own
    generator: zeros in row 0 and in column 0, and elsewhere
    [low + (high - low) * u] with [high = 0.1 * sqrt(6 / (nh + nv)) = - low]. *)
Module Glorot.

Definition bound (nv nh : nat) : R := 1 / 10 * sqrt (6 / INR (nh + nv)).

Definition entry (g : generator) (nv nh i j : nat) : npfloat :=
  match j, i with
  | S j', S i' =>
      Fin (- bound nv nh + (bound nv nh - - bound nv nh) * g (i' * nh + j')%nat)
  | _, _ => Fin 0
  end.

Definition initial_weights (g : generator) (nv nh : nat) : ndarray :=
  tabulate (S nv) (S nh) (entry g nv nh).

End Glorot.

(** The weight matrix of the instance that a constructor call returned. *)
Definition weights_of (result : outcome loc * world) : option ndarray :=
  match fst result with
  | Ok self =>
      match heap (snd result) !! self with
      | Some (Instance r) =>
          match heap (snd result) !! weights r with
          | Some (Array W) => Some W
          | _ => None
          end
      | _ => None
      end
  | Raise _ => None
  end.

(** ** A small machine to run the theorems on

    One visible and one hidden unit; the instance sits at reference 1, its
    weight matrix at 2 and a data set of two examples at 3; two degenerate
    data sets sit at 4 and 5. *)

Module Example.

Definition self : loc := 1%positive.
Definition weights_ref : loc := 2%positive.
Definition data_ref : loc := 3%positive.
Definition no_data_ref : loc := 4%positive.
Definition wide_data_ref : loc := 5%positive.

Definition rbm : RBM :=
  {| num_hidden := 1; num_visible := 1; debug_print := false;
     weights := weights_ref |}.

Definition W0 : ndarray :=
  {| ncols := 2; rows := [[Fin 0; Fin 0]; [Fin 0; Fin (1 / 20)]] |}.

Definition data : ndarray := {| ncols := 1; rows := [[Fin 1]; [Fin 0]] |}.

(** a data set of the right width that holds no example *)
Definition no_data : ndarray := {| ncols := 1; rows := [] |}.

(** a data set that is one column too wide *)
Definition wide_data : ndarray := {| ncols := 2; rows := [[Fin 1; Fin 0]] |}.

Definition heap0 : gmap loc obj :=
  <[self := Instance rbm]>
    (<[weights_ref := Array W0]>
       (<[data_ref := Array data]>
          (<[no_data_ref := Array no_data]>
             (<[wide_data_ref := Array wide_data]> ∅)))).

(** a generator that always draws [u] *)
Definition constant (u : R) : generator := fun _ => u.

Definition world0 : world :=
  {| heap := heap0; np_random := constant (3 / 4); stdout := [] |}.

End Example.

(** ** Two machines off the usual path

    [Alias]: a machine with one visible and no hidden unit, whose weight
    matrix has 2 rows and 1 column and so has the width of a data set for
    it: the matrix can be passed to [train] as the data.

    [Unbounded]: the machine of [Example] with one infinite weight, next to a
    data set that holds the single example [[0]]. *)

Module Alias.

Definition rbm : RBM :=
  {| num_hidden := 0; num_visible := 1; debug_print := false;
     weights := Example.weights_ref |}.

Definition W0 : ndarray := {| ncols := 1; rows := [[Fin 0]; [Fin 0]] |}.

Definition world0 : world :=
  {| heap := <[Example.self := Instance rbm]>
               (<[Example.weights_ref := Array W0]> ∅);
     np_random := Example.constant (3 / 4);
     stdout := [] |}.

End Alias.

Module Unbounded.

Definition W0 : ndarray :=
  {| ncols := 2; rows := [[Fin 0; Fin 0]; [Fin 0; PInf]] |}.

Definition data : ndarray := {| ncols := 1; rows := [[Fin 0]] |}.

Definition world0 : world :=
  {| heap := <[Example.self := Instance Example.rbm]>
               (<[Example.weights_ref := Array W0]>
                  (<[Example.data_ref := Array data]> ∅));
     np_random := Example.constant (3 / 4);
     stdout := [] |}.

End Unbounded.

(** ** More tools for the statements

    The real number a finite entry stands for, and sums of real numbers in
    the order of [fsum]. *)

Definition value (x : npfloat) : R :=
  match x with
  | Fin r => r
  | _ => 0
  end.

Definition rsum (n : nat) (a : nat -> R) : R :=
  fold_left (fun acc k => acc + a k) (seq 0 n) 0.

(** The bilinear form [sum_i sum_j V k i * A i j * H l j] of a matrix [A] of
    [p] rows and [q] columns, summed over every pair of one of [n] rows [k]
    of [V] and one of [m] rows [l] of [H]. *)
Definition bilinear (n m p q : nat) (V H A : nat -> nat -> R) : R :=
  rsum n (fun k => rsum m (fun l =>
    rsum q (fun j => rsum p (fun i => V k i * A i j) * H l j))).

(** The rows of [samples] and the generator after [count] passes of the loop
    of [daydream] that start at pass [start]: each pass stores the row it
    samples from the row before. *)
Fixpoint dream_rows (nv nh : nat) (W : ndarray) (count start : nat)
    (g : generator) (rows : list vec) : list vec :=
  match count with
  | O => rows
  | S c =>
      dream_rows nv nh W c (S start) (advance (advance g (S nh)) (S nv))
        (<[start := Gibbs.next_row nv nh W g (nth (start - 1) rows [])]> rows)
  end.

Fixpoint dream_gen (nv nh count : nat) (g : generator) : generator :=
  match count with
  | O => g
  | S c => dream_gen nv nh c (advance (advance g (S nh)) (S nv))
  end.

(** ** The cells "From scratch"

    The second half of the notebook trains the same machine without the
    class: a script that keeps the weights in a variable [W], draws from
    [np.random] and records four numbers per pass.  The literals of the cell
    (the data, [max_ep], [learn_rate], [num_hid]) are the arguments of
    [cell7], so that the statements hold for any of them. *)

(** [np.log(x)] *)
Definition np_log (x : npfloat) : npfloat :=
  match x with
  | Fin r => match Rsign r with
             | Pos => Fin (ln r)
             | Zero => NInf
             | Neg => NaN
             end
  | PInf => PInf
  | NInf => NaN
  | NaN => NaN
  end.

(** [np.nansum(a)]: the sum of [a] with every NaN replaced by zero. *)
Definition np_nansum (a : ndarray) : npfloat :=
  fold_left fadd
    (map (fun x => match x with NaN => Fin 0 | _ => x end) (concat (rows a)))
    (Fin 0).

(** [Energy(v, h, W)] *)
Definition Energy (v h W : ndarray) : outcome ndarray :=
  obind (np_dot v W) (fun vW => np_dot vW (np_T h)).

Module Scratch.

(** The lists [Ens], [Ers], [E11s] and [E01s]. *)
Record traces : Type := mk_traces {
  Ens : list npfloat;
  Ers : list npfloat;
  E11s : list npfloat;
  E01s : list npfloat
}.

(** One pass of the loop; the pair holds the array that [W] names and the
    four lists. *)
Definition loop_body (data : ndarray) (num_exp num_vis num_hid : nat)
    (learn_rate : npfloat) (ep : nat) (s : ndarray * traces)
  : M (ndarray * traces) :=
  let W := fst s in
  P_h_act <- lift (np_dot data W) ;;
  let P_h := logistic P_h_act in
  P_h <- lift (set_col0 P_h (Fin 1)) ;;
  rnd <- np_random_rand num_exp (num_hid + 1) ;;
  P_h_state <- lift (np_greater P_h rnd) ;;
  P_aso <- lift (np_dot (np_T data) P_h) ;;
  n_v_act <- lift (np_dot P_h_state (np_T W)) ;;
  let n_v := logistic n_v_act in
  n_v <- lift (set_col0 n_v (Fin 1)) ;;
  rnd <- np_random_rand num_exp (num_vis + 1) ;;
  n_v_state <- lift (np_greater n_v rnd) ;;
  n_h_act <- lift (np_dot n_v W) ;;
  let n_h := logistic n_h_act in
  rnd <- np_random_rand num_exp (num_hid + 1) ;;
  n_h_state <- lift (np_greater n_h rnd) ;;
  n_aso <- lift (np_dot (np_T n_v) n_h) ;;
  e <- lift (Energy n_v_state n_h_state W) ;;
  let E01 := np_sum e in
  diff <- lift (np_subtract P_aso n_aso) ;;
  let update :=
    nd_map (fmul learn_rate)
      (nd_map (fun x => fdiv x (of_nat num_exp)) diff) in
  W <- lift (np_iadd W update) ;;
  e <- lift (Energy n_v_state n_h_state W) ;;
  let E11 := np_sum e in
  d <- lift (np_subtract data n_v) ;;
  let error := np_sum (nd_map (fun x => fmul x x) d) in
  let En :=
    np_nansum (nd_map np_log
                 (nd_map (fun x => fadd x (Fin (/ 10 ^ 8))) P_h_act)) in
  ret (W, {| Ens := Ens (snd s) ++ [En];
             Ers := Ers (snd s) ++ [error];
             E11s := E11s (snd s) ++ [E11];
             E01s := E01s (snd s) ++ [E01] |}).

(** [a[:-2,:].copy()] *)
Definition drop_last_two (a : ndarray) : ndarray :=
  {| ncols := ncols a; rows := take (nrows a - 2) (rows a) |}.

(** The cell that trains: [data_input] is the array literal of its first
    line. *)
Definition cell7 (data_input : ndarray) (max_ep : nat) (learn_rate : npfloat)
    (num_hid : nat) : M (ndarray * traces) :=
  let data_input := drop_last_two data_input in
  let num_exp := nrows data_input in
  let num_vis := ncols data_input in
  W <- np_random_rand num_vis num_hid ;;
  let W := np_insert_row W (Fin 0) in
  let W := np_insert_col W (Fin 0) in
  let data := np_insert_col data_input (Fin 1) in
  for_range 0 max_ep (loop_body data num_exp num_vis num_hid learn_rate)
    (W, {| Ens := []; Ers := []; E11s := []; E01s := [] |}).

(** The next cell: [Qs = E11s[1:] - E01s[1:]] and
    [Ws = E01s[1:] - E11s[:-1]]. *)
Definition cell8 (t : traces) : outcome (vec * vec) :=
  obind (broadcast1 fsub (tl (E11s t)) (tl (E01s t))) (fun Qs =>
  obind (broadcast1 fsub (tl (E01s t)) (removelast (E11s t))) (fun Ws =>
  Ok (Qs, Ws))).

(** The two cells, one after the other. *)
Definition cells (data_input : ndarray) (max_ep : nat) (learn_rate : npfloat)
    (num_hid : nat) : M (ndarray * traces * (vec * vec)) :=
  s <- cell7 data_input max_ep learn_rate num_hid ;;
  qw <- lift (cell8 (snd s)) ;;
  ret (s, qw).

(** The literals of the notebook. *)
Definition data_input : ndarray :=
  {| ncols := 6;
     rows := map (map (fun b : bool => of_bool b))
               [[true; true; true; false; false; false];
                [true; false; true; false; false; false];
                [true; true; true; false; false; false];
                [false; false; true; true; true; false];
                [false; false; true; true; false; false];
                [false; false; true; true; true; false]] |}.
Definition max_ep : nat := 1000.
Definition learn_rate : npfloat := Fin (1 / 10).
Definition num_hid : nat := 4.

(** The quantities of one pass, entry by entry.  The pass draws three blocks
    of numbers: for the hidden states, for the states of the reconstruction
    and for the hidden states of the reconstruction. *)
Section Pass.

Variables (nv nh : nat) (d W : ndarray) (g : generator).
Variable rate : npfloat.                (* learn_rate *)

Definition after_first : generator := advance g (nrows d * S nh).
Definition after_second : generator := advance after_first (nrows d * S nv).
Definition after_third : generator := advance after_second (nrows d * S nh).

Definition n_v_state (k i : nat) : npfloat :=
  of_bool (fgt (CD1.neg_visible_probs nv nh d W g k i)
               (Fin (after_first (k * S nv + i)%nat))).

Definition n_h_state (k j : nat) : npfloat :=
  of_bool (fgt (CD1.neg_hidden_probs nv nh d W g k j)
               (Fin (after_second (k * S nh + j)%nat))).

(** the states of the reconstruction as arrays *)
Definition visible_states : ndarray := tabulate (nrows d) (S nv) n_v_state.
Definition hidden_states : ndarray := tabulate (nrows d) (S nh) n_h_state.

(** what the pass adds to [W] *)
Definition increment : ndarray :=
  tabulate (S nv) (S nh) (fun i j =>
    fmul rate
      (fdiv (fsub (CD1.pos_associations nv d W i j)
                  (CD1.neg_associations nv nh d W g i j))
            (of_nat (nrows d)))).

(** [np.sum(Energy(n_v_state, n_h_state, A))] for a matrix [A] of weights *)
Definition energy (A : nat -> nat -> npfloat) : npfloat :=
  np_sum (tabulate (nrows d) (nrows d) (fun k l =>
    fsum (S nh) (fun j =>
      fmul (fsum (S nv) (fun i => fmul (n_v_state k i) (A i j)))
           (n_h_state l j)))).

(** the entry of [Ens] *)
Definition log_activations : npfloat :=
  np_nansum (tabulate (nrows d) (S nh) (fun k j =>
    np_log (fadd (fsum (S nv) (fun m =>
                    fmul (CD1.augmented d k m) (get W m j)))
                 (Fin (/ 10 ^ 8))))).

End Pass.

End Scratch.

(** * Verification *)

(** ** Arrays: shapes and entries *)

Lemma length_vtabulate n g : length (vtabulate n g) = n.
Proof. unfold vtabulate. now rewrite length_map, length_seq. Qed.

Lemma vget_vtabulate n g i : (i < n)%nat -> vget (vtabulate n g) i = g i.
Proof.
  intros Hi. unfold vget, vtabulate.
  rewrite (nth_indep _ (Fin 0) (g 0%nat)) by (now rewrite length_map, length_seq).
  rewrite map_nth, seq_nth by assumption. reflexivity.
Qed.

Lemma nrows_tabulate r c g : nrows (tabulate r c g) = r.
Proof. unfold nrows, tabulate; cbn. now rewrite length_map, length_seq. Qed.

Lemma ncols_tabulate r c g : ncols (tabulate r c g) = c.
Proof. reflexivity. Qed.

Lemma row_tabulate r c g i :
  (i < r)%nat -> nth i (rows (tabulate r c g)) [] = vtabulate c (g i).
Proof.
  intros Hi. cbn.
  rewrite (nth_indep _ [] (vtabulate c (g 0%nat)))
    by (now rewrite length_map, length_seq).
  rewrite (map_nth (fun i => vtabulate c (g i))), seq_nth by assumption.
  reflexivity.
Qed.

Lemma get_tabulate r c g i j :
  (i < r)%nat -> (j < c)%nat -> get (tabulate r c g) i j = g i j.
Proof.
  intros Hi Hj. unfold get. rewrite row_tabulate by assumption.
  now apply vget_vtabulate.
Qed.

Lemma well_formed_tabulate r c g : well_formed (tabulate r c g).
Proof.
  unfold well_formed; cbn. apply List.Forall_forall. intros x Hx.
  apply in_map_iff in Hx. destruct Hx as [i [<- _]]. apply length_vtabulate.
Qed.

Lemma vtabulate_ext n g h :
  (forall i, (i < n)%nat -> g i = h i) -> vtabulate n g = vtabulate n h.
Proof.
  intros E. unfold vtabulate. apply map_ext_in. intros i Hi.
  apply in_seq in Hi. apply E. lia.
Qed.

Lemma tabulate_ext r c g h :
  (forall i j, (i < r)%nat -> (j < c)%nat -> g i j = h i j) ->
  tabulate r c g = tabulate r c h.
Proof.
  intros E. unfold tabulate. f_equal. apply map_ext_in. intros i Hi.
  apply in_seq in Hi. apply vtabulate_ext. intros j Hj. apply E; lia.
Qed.

Lemma vtabulate_vget (v : vec) : vtabulate (length v) (vget v) = v.
Proof.
  unfold vtabulate, vget.
  apply (nth_ext _ _ (Fin 0) (Fin 0)).
  - now rewrite length_map, length_seq.
  - intros i Hi. rewrite length_map, length_seq in Hi.
    rewrite (nth_indep _ (Fin 0) (nth 0 v (Fin 0)))
      by (now rewrite length_map, length_seq).
    rewrite (map_nth (fun j => nth j v (Fin 0))), seq_nth by assumption.
    reflexivity.
Qed.

(** A well-formed array is the table of its entries. *)
Lemma tabulate_get (a : ndarray) :
  well_formed a -> tabulate (nrows a) (ncols a) (get a) = a.
Proof.
  destruct a as [c rs]. unfold well_formed, nrows, tabulate, get; cbn.
  intros Hwf. f_equal.
  apply (nth_ext _ _ [] []).
  - now rewrite length_map, length_seq.
  - intros i Hi. rewrite length_map, length_seq in Hi.
    rewrite (nth_indep _ [] (vtabulate c (fun j => vget (nth 0 rs []) j)))
      by (now rewrite length_map, length_seq).
    rewrite (map_nth (fun i => vtabulate c (fun j => vget (nth i rs []) j))).
    rewrite seq_nth by assumption. cbn.
    assert (Hlen : length (nth i rs []) = c).
    { rewrite List.Forall_forall in Hwf. apply Hwf. now apply nth_In. }
    rewrite <- Hlen at 1. apply vtabulate_vget.
Qed.

Lemma fsum_ext n f g :
  (forall k, (k < n)%nat -> f k = g k) -> fsum n f = fsum n g.
Proof.
  intros E. unfold fsum.
  assert (G : forall l acc, (forall k, In k l -> f k = g k) ->
            fold_left (fun acc k => fadd acc (f k)) l acc =
            fold_left (fun acc k => fadd acc (g k)) l acc).
  { induction l as [|x l IH]; intros acc Hl; cbn; [reflexivity|].
    rewrite (Hl x) by now left. apply IH. intros k Hk. apply Hl. now right. }
  apply G. intros k Hk. apply in_seq in Hk. apply E. lia.
Qed.

Lemma nd_map_tabulate f r c g :
  nd_map f (tabulate r c g) = tabulate r c (fun i j => f (g i j)).
Proof.
  unfold nd_map, tabulate, vtabulate; cbn. f_equal.
  rewrite map_map. apply map_ext. intros i. now rewrite map_map.
Qed.

Lemma set_col0_tabulate r c g v :
  set_col0 (tabulate r (S c) g) v =
  Ok (tabulate r (S c) (fun i j => if (j =? 0)%nat then v else g i j)).
Proof.
  unfold set_col0, tabulate; cbn. do 2 f_equal.
  rewrite map_map. apply map_ext. intros i.
  unfold vtabulate. cbn. f_equal.
  apply map_ext_in. intros j Hj. apply in_seq in Hj.
  destruct j; [lia | reflexivity].
Qed.

Lemma drop_col0_tabulate r c g :
  drop_col0 (tabulate r (S c) g) = tabulate r c (fun i j => g i (S j)).
Proof.
  unfold drop_col0, tabulate; cbn. f_equal.
  rewrite map_map. apply map_ext. intros i.
  unfold vtabulate. cbn. now rewrite <- seq_shift, map_map.
Qed.

Lemma np_insert_col_tabulate r c g v :
  np_insert_col (tabulate r c g) v =
  tabulate r (S c) (fun i j => match j with O => v | S j' => g i j' end).
Proof.
  unfold np_insert_col, tabulate; cbn. f_equal.
  rewrite map_map. apply map_ext. intros i.
  unfold vtabulate. cbn. now rewrite <- seq_shift, map_map.
Qed.

Lemma np_insert_row_tabulate r c g v :
  np_insert_row (tabulate r c g) v =
  tabulate (S r) c (fun i j => match i with O => v | S i' => g i' j end).
Proof.
  unfold np_insert_row, tabulate; cbn. f_equal. f_equal.
  - unfold vtabulate. generalize 0%nat.
    induction c as [|c IH]; intros s; cbn; [reflexivity|]. now rewrite <- IH.
  - now rewrite <- seq_shift, map_map.
Qed.

Lemma bidx_lt m i : (i < m)%nat -> bidx m i = i.
Proof.
  intros Hi. unfold bidx. destruct (Nat.eqb_spec m 1); [lia | reflexivity].
Qed.

Lemma bdim_same n : bdim n n = Some n.
Proof. unfold bdim. now rewrite Nat.eqb_refl. Qed.

(** Two arrays of one shape: the operation is applied entry by entry. *)
Lemma broadcast2_tabulate f r c g h :
  broadcast2 f (tabulate r c g) (tabulate r c h) =
  Ok (tabulate r c (fun i j => f (g i j) (h i j))).
Proof.
  unfold broadcast2. rewrite !nrows_tabulate, !ncols_tabulate, !bdim_same.
  f_equal. apply tabulate_ext. intros i j Hi Hj.
  rewrite !bidx_lt by assumption. now rewrite !get_tabulate by assumption.
Qed.

Lemma broadcast1_vtabulate f n g h :
  broadcast1 f (vtabulate n g) (vtabulate n h) =
  Ok (vtabulate n (fun i => f (g i) (h i))).
Proof.
  unfold broadcast1. rewrite !length_vtabulate, bdim_same.
  f_equal. apply vtabulate_ext. intros i Hi.
  rewrite !bidx_lt by assumption. now rewrite !vget_vtabulate by assumption.
Qed.

Lemma np_iadd_tabulate r c g h :
  np_iadd (tabulate r c g) (tabulate r c h) =
  Ok (tabulate r c (fun i j => fadd (g i j) (h i j))).
Proof.
  unfold np_iadd. rewrite broadcast2_tabulate. cbn [obind].
  now rewrite !nrows_tabulate, !ncols_tabulate, !Nat.eqb_refl.
Qed.

Lemma np_assign_tabulate r c g h :
  np_assign (tabulate r c g) (tabulate r c h) = Ok (tabulate r c h).
Proof.
  unfold np_assign. rewrite broadcast2_tabulate. cbn [obind].
  now rewrite !nrows_tabulate, !ncols_tabulate, !Nat.eqb_refl.
Qed.

Lemma np_dot_tabulate r n c g h :
  np_dot (tabulate r n g) (tabulate n c h) =
  Ok (tabulate r c (fun i j => fsum n (fun k => fmul (g i k) (h k j)))).
Proof.
  unfold np_dot. rewrite !nrows_tabulate, !ncols_tabulate, Nat.eqb_refl.
  f_equal. apply tabulate_ext. intros i j Hi Hj.
  apply fsum_ext. intros k Hk. now rewrite !get_tabulate by assumption.
Qed.

Lemma np_dot_mismatch a b :
  ncols a <> nrows b -> np_dot a b = Raise ValueError.
Proof.
  intros H. unfold np_dot. now destruct (Nat.eqb_spec (ncols a) (nrows b)).
Qed.

Lemma np_T_tabulate r c g :
  np_T (tabulate r c g) = tabulate c r (fun i j => g j i).
Proof.
  unfold np_T. rewrite nrows_tabulate, ncols_tabulate.
  apply tabulate_ext. intros i j Hi Hj. now apply get_tabulate.
Qed.

(** ** Running the monad *)

Lemma bind_lift {A B} (o : outcome A) (k : A -> M B) w :
  bind (lift o) k w =
  match o with Ok a => k a w | Raise e => (Raise e, w) end.
Proof. unfold bind, lift. now destruct o. Qed.

Lemma bind_ret {A B} (a : A) (k : A -> M B) w : bind (ret a) k w = k a w.
Proof. reflexivity. Qed.

Lemma bind_attr_weights {B} self r W (k : ndarray -> M B) w :
  heap w !! self = Some (Instance r) ->
  heap w !! weights r = Some (Array W) ->
  bind (attr_weights self) k w = k W w.
Proof.
  intros Hs Hw. unfold attr_weights, bind, get_instance, get_array.
  now rewrite Hs, Hw.
Qed.

Lemma bind_attr {A B} (field : RBM -> A) self r (k : A -> M B) w :
  heap w !! self = Some (Instance r) ->
  bind (attr field self) k w = k (field r) w.
Proof.
  intros Hs. unfold attr, bind, get_instance, ret. now rewrite Hs.
Qed.

Lemma bind_get_instance {B} self r (k : RBM -> M B) w :
  heap w !! self = Some (Instance r) ->
  bind (get_instance self) k w = k r w.
Proof. intros Hs. unfold bind, get_instance. now rewrite Hs. Qed.

Lemma bind_get_array {B} l a (k : ndarray -> M B) w :
  heap w !! l = Some (Array a) ->
  bind (get_array l) k w = k a w.
Proof. intros Hl. unfold bind, get_array. now rewrite Hl. Qed.

Lemma bind_rand {B} r c (k : ndarray -> M B) w :
  bind (np_random_rand r c) k w =
  k (draw2 (np_random w) r c)
    {| heap := heap w; np_random := advance (np_random w) (r * c);
       stdout := stdout w |}.
Proof. reflexivity. Qed.

Lemma bind_rand1 {B} n (k : vec -> M B) w :
  bind (np_random_rand1 n) k w =
  k (draw1 (np_random w) n)
    {| heap := heap w; np_random := advance (np_random w) n;
       stdout := stdout w |}.
Proof. reflexivity. Qed.

Lemma bind_set_array {B} l a (k : unit -> M B) w :
  bind (set_array l a) k w =
  k tt {| heap := <[l := Array a]> (heap w); np_random := np_random w;
          stdout := stdout w |}.
Proof. reflexivity. Qed.

Lemma np_insert_col_augmented d :
  well_formed d ->
  np_insert_col d (Fin 1) = tabulate (nrows d) (S (ncols d)) (CD1.augmented d).
Proof.
  intros Hd. rewrite <- (tabulate_get d Hd) at 1.
  rewrite np_insert_col_tabulate. apply tabulate_ext.
  intros i [|j] _ _; reflexivity.
Qed.

Lemma train_epoch_tabulated self r nv nh d W lr epoch w :
  heap w !! self = Some (Instance r) ->
  heap w !! weights r = Some (Array (tabulate (S nv) (S nh) (get W))) ->
  num_visible r = nv -> num_hidden r = nh ->
  train_epoch self (tabulate (nrows d) (S nv) (CD1.augmented d)) (nrows d)
    lr epoch tt w =
  (Ok tt,
   {| heap := <[weights r := Array (CD1.updated_weights nv nh d W (np_random w) lr)]>
                (heap w);
      np_random := CD1.generator_after nh d (np_random w);
      stdout := if debug_print r
                then stdout w ++ [(epoch, CD1.error nv nh d W (np_random w))]
                else stdout w |}).
Proof.
  intros Hs Hw Hnv Hnh.
  unfold train_epoch.
  rewrite (bind_attr_weights _ _ _ _ _ Hs Hw).
  rewrite bind_lift, np_dot_tabulate.
  unfold _logistic. rewrite nd_map_tabulate.
  rewrite bind_lift, set_col0_tabulate.
  rewrite (bind_attr _ _ _ _ _ Hs), Hnh, Nat.add_1_r.
  rewrite bind_rand. unfold draw2.
  rewrite bind_lift. unfold np_greater. rewrite broadcast2_tabulate.
  rewrite bind_lift, np_T_tabulate, np_dot_tabulate.
  erewrite bind_attr_weights; [| exact Hs | exact Hw].
  rewrite bind_lift, np_T_tabulate, np_dot_tabulate.
  rewrite nd_map_tabulate, bind_lift, set_col0_tabulate.
  erewrite bind_attr_weights; [| exact Hs | exact Hw].
  rewrite bind_lift, np_dot_tabulate, nd_map_tabulate.
  rewrite bind_lift, np_T_tabulate, np_dot_tabulate.
  erewrite bind_attr_weights; [| exact Hs | exact Hw].
  rewrite bind_lift. unfold np_subtract. rewrite broadcast2_tabulate.
  rewrite !nd_map_tabulate, bind_lift, np_iadd_tabulate.
  erewrite bind_get_instance; [| exact Hs].
  rewrite bind_set_array.
  rewrite bind_lift, broadcast2_tabulate, nd_map_tabulate.
  erewrite bind_attr.
  2:{ cbn [heap]. rewrite lookup_insert_ne; [exact Hs|].
      intros E. rewrite E in Hw. rewrite Hs in Hw. discriminate. }
  destruct (debug_print r); reflexivity.
Qed.

(** The array program of one epoch computes the update of [CD1]. *)
Lemma train_epoch_run self r W d lr epoch w :
  rbm_at w self r W ->
  well_formed d ->
  ncols d = num_visible r ->
  train_epoch self (np_insert_col d (Fin 1)) (nrows d) lr epoch tt w =
  (Ok tt,
   {| heap := <[weights r :=
                  Array (CD1.updated_weights (num_visible r) (num_hidden r)
                           d W (np_random w) lr)]> (heap w);
      np_random := CD1.generator_after (num_hidden r) d (np_random w);
      stdout := if debug_print r
                then stdout w ++
                     [(epoch, CD1.error (num_visible r) (num_hidden r) d W
                                (np_random w))]
                else stdout w |}).
Proof.
  intros (Hs & Hw & Hwf & Hr & Hc) Hd Hdc.
  rewrite (np_insert_col_augmented d Hd), Hdc.
  apply train_epoch_tabulated; try reflexivity; try assumption.
  rewrite <- Hr, <- Hc, (tabulate_get W Hwf). exact Hw.
Qed.

Lemma rbm_at_self_ne_weights w self r W : rbm_at w self r W -> self <> weights r.
Proof.
  intros (Hs & Hw & _) E. rewrite E in Hs. rewrite Hs in Hw. discriminate.
Qed.

(** Overwriting the weight matrix by an array of the same shape keeps the
    instance in place. *)
Lemma rbm_at_set_weights w self r W h g out W' :
  rbm_at w self r W ->
  h = <[weights r := Array W']> (heap w) ->
  well_formed W' -> nrows W' = S (num_visible r) -> ncols W' = S (num_hidden r) ->
  rbm_at {| heap := h; np_random := g; stdout := out |} self r W'.
Proof.
  intros H -> Hwf Hr Hc. pose proof (rbm_at_self_ne_weights _ _ _ _ H) as Hne.
  destruct H as (Hs & Hw & _). unfold rbm_at. cbn [heap].
  rewrite lookup_insert_eq, lookup_insert_ne by congruence. auto.
Qed.

Lemma for_range_train_epoch self r d lr n : forall start W w,
  rbm_at w self r W ->
  well_formed d ->
  ncols d = num_visible r ->
  for_range start n
    (train_epoch self (np_insert_col d (Fin 1)) (nrows d) lr) tt w =
  (Ok tt,
   {| heap := <[weights r :=
                  Array (fst (CD1.epochs n (num_visible r) (num_hidden r) d W
                                (np_random w) lr))]> (heap w);
      np_random := snd (CD1.epochs n (num_visible r) (num_hidden r) d W
                          (np_random w) lr);
      stdout := stdout w ++
                CD1.log (debug_print r) start n (num_visible r) (num_hidden r)
                  d W (np_random w) lr |}).
Proof.
  induction n as [|n IH]; intros start W w HW Hd Hdc.
  - cbn [for_range CD1.epochs CD1.log fst snd]. unfold ret.
    destruct HW as (_ & Hw & _). rewrite insert_id by exact Hw.
    rewrite app_nil_r. now destruct w.
  - cbn [for_range]. unfold bind at 1.
    rewrite (train_epoch_run _ _ _ _ _ _ _ HW Hd Hdc).
    erewrite IH; [| | exact Hd | exact Hdc].
    2:{ eapply rbm_at_set_weights; [exact HW | reflexivity | | |].
        - apply well_formed_tabulate.
        - apply nrows_tabulate.
        - apply ncols_tabulate. }
    cbn [heap np_random stdout CD1.epochs CD1.log].
    rewrite insert_insert_eq. do 2 f_equal.
    destruct (debug_print r); cbn [app].
    + now rewrite <- app_assoc.
    + reflexivity.
Qed.

Lemma train_run self data r W d max_epochs lr w :
  rbm_at w self r W ->
  array_at w data d ->
  ncols d = num_visible r ->
  train self data max_epochs lr w =
  (Ok tt,
   {| heap := <[weights r :=
                  Array (fst (CD1.epochs (Z.to_nat max_epochs) (num_visible r)
                                (num_hidden r) d W (np_random w) lr))]> (heap w);
      np_random := snd (CD1.epochs (Z.to_nat max_epochs) (num_visible r)
                          (num_hidden r) d W (np_random w) lr);
      stdout := stdout w ++
                CD1.log (debug_print r) 0 (Z.to_nat max_epochs) (num_visible r)
                  (num_hidden r) d W (np_random w) lr |}).
Proof.
  intros HW [Hd Hdwf] Hdc. unfold train.
  erewrite bind_get_array by exact Hd.
  now apply for_range_train_epoch.
Qed.

(** Every epoch yields a well-formed matrix of the shape it started from. *)
Lemma epochs_shape n nv nh d lr : forall W g,
  well_formed W -> nrows W = S nv -> ncols W = S nh ->
  well_formed (fst (CD1.epochs n nv nh d W g lr)) /\
  nrows (fst (CD1.epochs n nv nh d W g lr)) = S nv /\
  ncols (fst (CD1.epochs n nv nh d W g lr)) = S nh.
Proof.
  induction n as [|n IH]; intros W g Hwf Hr Hc; cbn [CD1.epochs fst].
  - auto.
  - apply IH.
    + apply well_formed_tabulate.
    + apply nrows_tabulate.
    + apply ncols_tabulate.
Qed.

Lemma example_rbm_at : rbm_at Example.world0 Example.self Example.rbm Example.W0.
Proof.
  unfold rbm_at. repeat split; try reflexivity.
  repeat constructor.
Defined.

Lemma example_data_at : array_at Example.world0 Example.data_ref Example.data.
Proof. split; [reflexivity | repeat constructor]. Defined.

(** ** C1: what one call of [train] does to the weights *)

(** C1. For data with [num_visible] columns, [train] runs to its end, and
    each of its [max_epochs] epochs replaces the weights by
    [weights + learning_rate * (pos_associations - neg_associations) /
    num_examples], where the associations are those of [CD1]: the positive
    hidden probabilities have column 0 forced to 1 before the hidden states
    are sampled, the reconstructed visible probabilities have column 0 forced
    to 1, and the second hidden pass has no column forced. *)
Theorem train_applies_cd1_update self data r W d max_epochs learning_rate w :
  rbm_at w self r W ->
  array_at w data d ->
  ncols d = num_visible r ->
  let after :=
    CD1.epochs (Z.to_nat max_epochs) (num_visible r) (num_hidden r) d W
      (np_random w) learning_rate in
  exists w',
    train self data max_epochs learning_rate w = (Ok tt, w') /\
    rbm_at w' self r (fst after) /\
    np_random w' = snd after /\
    (forall W1 g i j, (i <= num_visible r)%nat -> (j <= num_hidden r)%nat ->
       get (CD1.updated_weights (num_visible r) (num_hidden r) d W1 g
              learning_rate) i j =
       fadd (get W1 i j)
         (fmul learning_rate
            (fdiv (fsub (CD1.pos_associations (num_visible r) d W1 i j)
                        (CD1.neg_associations (num_visible r) (num_hidden r)
                           d W1 g i j))
                  (of_nat (nrows d))))).
Proof.
  intros HW Hd Hdc after. eexists. split; [| split; [| split]].
  - apply (train_run _ _ _ _ _ _ _ _ HW Hd Hdc).
  - fold after.
    assert (Hshape : well_formed (fst after) /\
                     nrows (fst after) = S (num_visible r) /\
                     ncols (fst after) = S (num_hidden r)).
    { destruct HW as (_ & _ & ? & ? & ?). now apply epochs_shape. }
    destruct Hshape as (? & ? & ?).
    eapply rbm_at_set_weights; [exact HW | reflexivity | | |]; assumption.
  - reflexivity.
  - intros W1 g i j Hi Hj. unfold CD1.updated_weights.
    rewrite get_tabulate by lia. reflexivity.
Qed.

Lemma train_applies_cd1_update_witness :
  exists w',
    train Example.self Example.data_ref 5 (Fin (1 / 10)) Example.world0 = (Ok tt, w') /\
    rbm_at w' Example.self Example.rbm
      (fst (CD1.epochs 5 1 1 Example.data Example.W0 (Example.constant (3 / 4))
              (Fin (1 / 10)))).
Proof.
  destruct (train_applies_cd1_update Example.self Example.data_ref Example.rbm Example.W0
              Example.data 5 (Fin (1 / 10)) Example.world0
              example_rbm_at example_data_at eq_refl)
    as (w' & Hrun & Hat & _).
  exists w'. split; [exact Hrun | exact Hat].
Defined.

(** ** Arithmetic on finite numbers *)

Lemma Rsign_pos r : 0 < r -> Rsign r = Pos.
Proof.
  intros H. unfold Rsign. destruct (total_order_T r 0) as [[?|?]|?]; try lra.
  reflexivity.
Qed.

Lemma Rsign_neg r : r < 0 -> Rsign r = Neg.
Proof.
  intros H. unfold Rsign. destruct (total_order_T r 0) as [[?|?]|?]; try lra.
  reflexivity.
Qed.

Lemma Rsign_zero r : r = 0 -> Rsign r = Zero.
Proof.
  intros H. unfold Rsign. destruct (total_order_T r 0) as [[?|?]|?]; try lra.
  reflexivity.
Qed.


Lemma fgt_Fin_false a b : a <= b -> fgt (Fin a) (Fin b) = false.
Proof. intros H. cbn. destruct (Rlt_dec b a); [lra | reflexivity]. Qed.

Lemma logistic1_Fin x : logistic1 (Fin x) = Fin (1 / (1 + exp (- x))).
Proof.
  unfold logistic1; cbn [fneg fexp fadd fdiv].
  rewrite Rsign_pos; [reflexivity |].
  pose proof (exp_pos (- x)). lra.
Qed.

Lemma is_finite_Fin x : is_finite x -> exists r, x = Fin r.
Proof. destruct x; cbn; intros H; try contradiction. now exists r. Qed.

Lemma is_finite_fadd x y : is_finite x -> is_finite y -> is_finite (fadd x y).
Proof. destruct x, y; cbn; auto. Qed.

Lemma is_finite_fmul x y : is_finite x -> is_finite y -> is_finite (fmul x y).
Proof. destruct x, y; cbn; intros; try contradiction; exact I. Qed.

Lemma is_finite_fsub x y : is_finite x -> is_finite y -> is_finite (fsub x y).
Proof. destruct x, y; cbn; auto. Qed.

Lemma is_finite_of_bool b : is_finite (of_bool b).
Proof. now destruct b. Qed.

Lemma is_finite_logistic1 x : is_finite x -> is_finite (logistic1 x).
Proof.
  intros H. apply is_finite_Fin in H. destruct H as [r ->].
  now rewrite logistic1_Fin.
Qed.

Lemma is_finite_fsum n f :
  (forall k, (k < n)%nat -> is_finite (f k)) -> is_finite (fsum n f).
Proof.
  intros H. unfold fsum.
  assert (G : forall l acc, is_finite acc -> (forall k, In k l -> is_finite (f k)) ->
            is_finite (fold_left (fun acc k => fadd acc (f k)) l acc)).
  { induction l as [|x l IH]; intros acc Ha Hl; cbn; [assumption|].
    apply IH.
    - apply is_finite_fadd; [assumption |]. apply Hl. now left.
    - intros k Hk. apply Hl. now right. }
  apply G; [exact I |]. intros k Hk. apply in_seq in Hk. apply H. lia.
Qed.

Lemma all_finite_get a i j : all_finite a -> is_finite (get a i j).
Proof.
  intros H. unfold get, vget.
  destruct (Nat.lt_ge_cases i (length (rows a))) as [Hi|Hi].
  - assert (Hrow : Forall is_finite (nth i (rows a) [])).
    { unfold all_finite in H. rewrite List.Forall_forall in H.
      apply H. now apply nth_In. }
    destruct (Nat.lt_ge_cases j (length (nth i (rows a) []))) as [Hj|Hj].
    + rewrite List.Forall_forall in Hrow. apply Hrow. now apply nth_In.
    + now rewrite (nth_overflow _ _ Hj).
  - rewrite (nth_overflow _ _ Hi). now destruct j.
Qed.

Create HintDb finite.
#[local] Hint Resolve is_finite_fadd is_finite_fmul is_finite_fsub
  is_finite_of_bool is_finite_logistic1 is_finite_fsum all_finite_get : finite.

Section FiniteEpoch.

Variables (nv nh : nat) (d W : ndarray) (g : generator).
Hypothesis Hd : all_finite d.
Hypothesis HW : all_finite W.

Lemma is_finite_augmented k m : is_finite (CD1.augmented d k m).
Proof. destruct m; cbn; auto with finite. Qed.

#[local] Hint Resolve is_finite_augmented : finite.

Lemma is_finite_pos_hidden_probs k j :
  is_finite (CD1.pos_hidden_probs nv d W k j).
Proof.
  unfold CD1.pos_hidden_probs. destruct (j =? 0)%nat; [exact I |].
  auto 6 with finite.
Qed.

Lemma is_finite_neg_visible_probs k i :
  is_finite (CD1.neg_visible_probs nv nh d W g k i).
Proof.
  unfold CD1.neg_visible_probs. destruct (i =? 0)%nat; [exact I |].
  unfold CD1.pos_hidden_states. auto 6 with finite.
Qed.

#[local] Hint Resolve is_finite_pos_hidden_probs is_finite_neg_visible_probs
  : finite.

Lemma is_finite_neg_hidden_probs k j :
  is_finite (CD1.neg_hidden_probs nv nh d W g k j).
Proof. unfold CD1.neg_hidden_probs. auto 6 with finite. Qed.

#[local] Hint Resolve is_finite_neg_hidden_probs : finite.

Lemma is_finite_associations i j :
  is_finite (fsub (CD1.pos_associations nv d W i j)
                  (CD1.neg_associations nv nh d W g i j)).
Proof.
  unfold CD1.pos_associations, CD1.neg_associations. auto 6 with finite.
Qed.

(** With at least one example and a learning rate of 0 the update adds 0. *)
Lemma updated_zero_rate i j :
  (0 < nrows d)%nat ->
  CD1.updated nv nh d W g (Fin 0) i j = get W i j.
Proof.
  intros HN. unfold CD1.updated.
  destruct (is_finite_Fin _ (is_finite_associations i j)) as [x ->].
  destruct (is_finite_Fin _ (all_finite_get W i j HW)) as [y ->].
  unfold of_nat, CD1.num_examples. cbn [fdiv].
  rewrite Rsign_pos by (apply lt_0_INR; lia).
  cbn [fmul fadd]. f_equal. lra.
Qed.

Lemma updated_weights_zero_rate :
  well_formed W -> nrows W = S nv -> ncols W = S nh -> (0 < nrows d)%nat ->
  CD1.updated_weights nv nh d W g (Fin 0) = W.
Proof.
  intros Hwf Hr Hc HN. unfold CD1.updated_weights.
  rewrite <- (tabulate_get W Hwf) at 2. rewrite Hr, Hc.
  apply tabulate_ext. intros i j _ _. now apply updated_zero_rate.
Qed.

End FiniteEpoch.

Lemma epochs_zero_rate n nv nh d W :
  all_finite d -> all_finite W ->
  well_formed W -> nrows W = S nv -> ncols W = S nh -> (0 < nrows d)%nat ->
  forall g, fst (CD1.epochs n nv nh d W g (Fin 0)) = W.
Proof.
  intros Hd HW Hwf Hr Hc HN.
  induction n as [|n IH]; intros g; cbn [CD1.epochs]; [reflexivity |].
  rewrite updated_weights_zero_rate by assumption. apply IH.
Qed.

(** On a data set without examples the mean over the examples is [0 / 0]:
    every entry of the update is NaN, whatever the learning rate. *)
Lemma updated_no_examples nv nh d W g lr i j :
  nrows d = 0%nat -> CD1.updated nv nh d W g lr i j = NaN.
Proof.
  intros HN. unfold CD1.updated, CD1.pos_associations, CD1.neg_associations,
    CD1.num_examples, of_nat. rewrite HN. cbn [fsum seq fold_left INR fsub fneg fadd].
  cbn [fdiv]. rewrite !Rsign_zero by lra.
  destruct lr; cbn [fmul]; destruct (get W i j); reflexivity.
Qed.

(** ** C6: a learning rate of 0 *)

(** C6, as the code has it, in exact arithmetic.  When the data set has
    [num_visible] columns and at least one example, and the data and the
    weights are finite numbers, [train] with learning rate 0 leaves the weight
    matrix (and the whole heap) unchanged, for every epoch count and every
    stream of draws.  Numbers are exact here, so that finite operands never
    overflow: the statement is about the runs of the code in which no
    intermediate result overflows to an infinity.  Rounding does not matter,
    as 0 times a finite number is 0 in binary64 as well. *)
Theorem train_zero_rate_keeps_weights self data r W d max_epochs w :
  rbm_at w self r W ->
  array_at w data d ->
  ncols d = num_visible r ->
  (0 < nrows d)%nat ->
  all_finite d ->
  all_finite W ->
  exists w',
    train self data max_epochs (Fin 0) w = (Ok tt, w') /\
    heap w' = heap w /\
    heap w' !! weights r = Some (Array W).
Proof.
  intros HW Hd Hdc HN Hfd HfW.
  rewrite (train_run _ _ _ _ _ _ _ _ HW Hd Hdc).
  destruct HW as (Hs & Hw & Hwf & Hr & Hc).
  eexists. split; [reflexivity |]. cbn [heap].
  rewrite epochs_zero_rate by assumption.
  rewrite insert_id by exact Hw. auto.
Qed.

Lemma example_data_finite : all_finite Example.data.
Proof. repeat constructor. Defined.

Lemma example_W0_finite : all_finite Example.W0.
Proof. repeat constructor. Defined.

Lemma train_zero_rate_keeps_weights_witness :
  exists w',
    train Example.self Example.data_ref 7 (Fin 0) Example.world0 = (Ok tt, w') /\
    heap w' = heap Example.world0 /\
    heap w' !! Example.weights_ref = Some (Array Example.W0).
Proof.
  apply (train_zero_rate_keeps_weights Example.self Example.data_ref Example.rbm
           Example.W0 Example.data 7 Example.world0
           example_rbm_at example_data_at eq_refl).
  - cbn. lia.
  - exact example_data_finite.
  - exact example_W0_finite.
Defined.

Lemma fadd_NaN_r x : fadd x NaN = NaN.
Proof. now destruct x. Qed.

Lemma fadd_NaN_l x : fadd NaN x = NaN.
Proof. now destruct x. Qed.

Lemma fmul_NaN_r x : fmul x NaN = NaN.
Proof. now destruct x. Qed.

Lemma unbounded_rbm_at :
  rbm_at Unbounded.world0 Example.self Example.rbm Unbounded.W0.
Proof.
  unfold rbm_at. repeat split; try reflexivity. repeat constructor.
Qed.

Lemma unbounded_data_at :
  array_at Unbounded.world0 Example.data_ref Unbounded.data.
Proof. split; [reflexivity | repeat constructor]. Qed.

(** An infinite weight next to a data entry 0: the activation of the hidden
    unit is [0 * inf], which is NaN. *)
Lemma updated_infinite_weight g :
  CD1.updated 1 1 Unbounded.data Unbounded.W0 g (Fin 0) 0 1 = NaN.
Proof.
  assert (P : CD1.pos_associations 1 Unbounded.data Unbounded.W0 0 1 = NaN).
  { unfold CD1.pos_associations, CD1.num_examples, CD1.pos_hidden_probs.
    cbn [nrows rows Unbounded.data length fsum seq fold_left Nat.eqb].
    cbn [CD1.augmented get vget nth Unbounded.W0 Unbounded.data rows].
    cbn [fmul fadd]. rewrite Rsign_zero by reflexivity.
    cbn [inf_times]. reflexivity. }
  unfold CD1.updated. rewrite P. unfold fsub. rewrite fadd_NaN_l.
  unfold CD1.num_examples, of_nat. cbn [fdiv fmul].
  apply fadd_NaN_r.
Qed.

(** C6 as stated fails on a data set of the right width without examples:
    one epoch at learning rate 0 turns every weight into NaN.  And the weights
    have to be finite: with the single example [[0]] and one infinite weight,
    one epoch at learning rate 0 turns the finite weight [weights[0,1] = 0]
    into NaN. *)
Lemma train_zero_rate_changes_weights :
  (rbm_at Example.world0 Example.self Example.rbm Example.W0 /\
   array_at Example.world0 Example.no_data_ref Example.no_data /\
   ncols Example.no_data = num_visible Example.rbm /\
   exists w',
     train Example.self Example.no_data_ref 1 (Fin 0) Example.world0 = (Ok tt, w') /\
     heap w' !! Example.weights_ref =
       Some (Array {| ncols := 2; rows := [[NaN; NaN]; [NaN; NaN]] |}) /\
     heap w' !! Example.weights_ref <> heap Example.world0 !! Example.weights_ref) /\
  (rbm_at Unbounded.world0 Example.self Example.rbm Unbounded.W0 /\
   array_at Unbounded.world0 Example.data_ref Unbounded.data /\
   ncols Unbounded.data = num_visible Example.rbm /\
   nrows Unbounded.data = 1%nat /\
   all_finite Unbounded.data /\
   exists w' W',
     train Example.self Example.data_ref 1 (Fin 0) Unbounded.world0 = (Ok tt, w') /\
     heap w' !! Example.weights_ref = Some (Array W') /\
     get Unbounded.W0 0 1 = Fin 0 /\
     get W' 0 1 = NaN).
Proof.
  split.
  - assert (Hd : array_at Example.world0 Example.no_data_ref Example.no_data).
    { split; [reflexivity | constructor]. }
    split; [exact example_rbm_at |]. split; [exact Hd |]. split; [reflexivity |].
    rewrite (train_run _ _ _ _ _ _ _ _ example_rbm_at Hd eq_refl).
    eexists. split; [reflexivity |]. cbn [heap].
    assert (E : fst (CD1.epochs (Z.to_nat 1) (num_visible Example.rbm)
                       (num_hidden Example.rbm) Example.no_data Example.W0
                       (np_random Example.world0) (Fin 0)) =
                {| ncols := 2; rows := [[NaN; NaN]; [NaN; NaN]] |}).
    { change (Z.to_nat 1) with 1%nat. cbn [CD1.epochs fst].
      unfold CD1.updated_weights, tabulate, vtabulate.
      cbn [seq map num_visible num_hidden Example.rbm].
      now rewrite !updated_no_examples by reflexivity. }
    rewrite E. split.
    + apply lookup_insert_eq.
    + rewrite lookup_insert_eq. discriminate.
  - split; [exact unbounded_rbm_at |]. split; [exact unbounded_data_at |].
    split; [reflexivity |]. split; [reflexivity |].
    split; [repeat constructor |].
    rewrite (train_run _ _ _ _ _ _ _ _ unbounded_rbm_at unbounded_data_at eq_refl).
    eexists. eexists. split; [reflexivity |]. cbn [heap].
    split; [apply lookup_insert_eq |]. split; [reflexivity |].
    change (Z.to_nat 1) with 1%nat. cbn [CD1.epochs fst].
    unfold CD1.updated_weights. rewrite get_tabulate by (cbn; lia).
    apply updated_infinite_weight.
Qed.

(** ** C7: what [train] may touch *)















(** ** C9: data of the wrong width *)

Lemma train_epoch_mismatch self r W d N lr epoch w :
  rbm_at w self r W ->
  ncols d <> num_visible r ->
  train_epoch self (np_insert_col d (Fin 1)) N lr epoch tt w =
  (Raise ValueError, w).
Proof.
  intros (Hs & Hw & _ & Hr & _) Hne. unfold train_epoch.
  rewrite (bind_attr_weights _ _ _ _ _ Hs Hw), bind_lift.
  rewrite np_dot_mismatch; [reflexivity |].
  cbn [np_insert_col ncols]. lia.
Qed.

Lemma train_mismatch self data r W d max_epochs lr w :
  rbm_at w self r W ->
  array_at w data d ->
  ncols d <> num_visible r ->
  (0 < max_epochs)%Z ->
  train self data max_epochs lr w = (Raise ValueError, w).
Proof.
  intros HW [Hd _] Hne Hpos. unfold train.
  erewrite bind_get_array by exact Hd.
  destruct (Z.to_nat max_epochs) as [|n] eqn:En; [lia |].
  cbn [for_range]. unfold bind at 1.
  now rewrite (train_epoch_mismatch _ _ _ _ _ _ _ _ HW Hne).
Qed.

(** Outside the epoch counts [train] is meant for: with no epoch to run the
    loop body is never entered, so nothing is computed and nothing raised. *)
Lemma train_no_epochs self data d max_epochs lr w :
  heap w !! data = Some (Array d) ->
  (max_epochs <= 0)%Z ->
  train self data max_epochs lr w = (Ok tt, w).
Proof.
  intros Hd Hle. unfold train.
  erewrite bind_get_array by exact Hd.
  replace (Z.to_nat max_epochs) with 0%nat by lia. reflexivity.
Qed.

Lemma run_visible_mismatch self data r W d w :
  rbm_at w self r W ->
  array_at w data d ->
  ncols d <> num_visible r ->
  run_visible self data w = (Raise ValueError, w).
Proof.
  intros (Hs & Hw & _ & Hr & _) [Hd _] Hne. unfold run_visible.
  erewrite bind_get_array by exact Hd.
  rewrite (bind_attr _ _ _ _ _ Hs).
  rewrite (bind_attr_weights _ _ _ _ _ Hs Hw), bind_lift.
  rewrite np_dot_mismatch; [reflexivity |].
  cbn [np_insert_col ncols]. lia.
Qed.

Lemma run_hidden_mismatch self data r W d w :
  rbm_at w self r W ->
  array_at w data d ->
  ncols d <> num_hidden r ->
  run_hidden self data w = (Raise ValueError, w).
Proof.
  intros (Hs & Hw & _ & _ & Hc) [Hd _] Hne. unfold run_hidden.
  erewrite bind_get_array by exact Hd.
  rewrite (bind_attr _ _ _ _ _ Hs).
  rewrite (bind_attr_weights _ _ _ _ _ Hs Hw), bind_lift.
  rewrite np_dot_mismatch; [reflexivity |].
  unfold np_T. rewrite nrows_tabulate. cbn [np_insert_col ncols]. lia.
Qed.

(** C9.  No method checks the width of its input: the error is the one of
    the matrix product.  With data whose width is not [num_visible],
    [run_visible] raises it, and so does [train] (for a positive epoch count,
    as [train] expects): the error comes in the first epoch, before any
    update.  With input whose width is not [num_hidden], [run_hidden] raises
    in the same way.  The failure is local to the call: the heap (the weight
    matrix with it), the generator and the output are as they were before. *)
Theorem wrong_width_raises_before_any_update self data r W d max_epochs lr w :
  rbm_at w self r W ->
  array_at w data d ->
  (0 < max_epochs)%Z ->
  (ncols d <> num_visible r ->
     train self data max_epochs lr w = (Raise ValueError, w) /\
     run_visible self data w = (Raise ValueError, w)) /\
  (ncols d <> num_hidden r ->
     run_hidden self data w = (Raise ValueError, w)).
Proof.
  intros HW Hd Hpos. split.
  - intros Hne. split.
    + now apply (train_mismatch _ _ r W d).
    + now apply (run_visible_mismatch _ _ r W d).
  - intros Hne. now apply (run_hidden_mismatch _ _ r W d).
Qed.

Lemma example_wide_data_at :
  array_at Example.world0 Example.wide_data_ref Example.wide_data.
Proof. split; [reflexivity | repeat constructor]. Defined.

Lemma wrong_width_raises_before_any_update_witness :
  train Example.self Example.wide_data_ref 1000 (Fin (1 / 10)) Example.world0 =
    (Raise ValueError, Example.world0) /\
  run_visible Example.self Example.wide_data_ref Example.world0 =
    (Raise ValueError, Example.world0) /\
  run_hidden Example.self Example.wide_data_ref Example.world0 =
    (Raise ValueError, Example.world0).
Proof.
  destruct (wrong_width_raises_before_any_update Example.self
              Example.wide_data_ref Example.rbm Example.W0 Example.wide_data
              1000 (Fin (1 / 10)) Example.world0 example_rbm_at
              example_wide_data_at)
    as [Hv Hh]; [lia |].
  assert (Hne : ncols Example.wide_data <> 1%nat) by (cbn; lia).
  destruct (Hv Hne) as (Htrain & Hrun).
  split; [exact Htrain |]. split; [exact Hrun | exact (Hh Hne)].
Defined.

(** ** C3: sampling one layer from the other *)

Lemma is_binary_of_bool b : is_binary (of_bool b).
Proof. destruct b; [now right | now left]. Qed.

Lemma all_binary_tabulate r c g :
  (forall i j, (i < r)%nat -> (j < c)%nat -> is_binary (g i j)) ->
  all_binary (tabulate r c g).
Proof.
  intros H. unfold all_binary, tabulate, vtabulate; cbn [rows].
  apply List.Forall_forall. intros row Hrow.
  apply in_map_iff in Hrow. destruct Hrow as (i & <- & Hi).
  apply in_seq in Hi.
  apply List.Forall_forall. intros x Hx.
  apply in_map_iff in Hx. destruct Hx as (j & <- & Hj).
  apply in_seq in Hj. apply H; lia.
Qed.

Lemma run_visible_tabulated self data r nv nh d W w :
  heap w !! self = Some (Instance r) ->
  heap w !! weights r = Some (Array (tabulate (S nv) (S nh) (get W))) ->
  num_visible r = nv -> num_hidden r = nh ->
  array_at w data d ->
  ncols d = nv ->
  run_visible self data w =
  (Ok (tabulate (nrows d) nh
         (fun k j => Sample.hidden nv nh d W (np_random w) k (S j))),
   {| heap := heap w;
      np_random := advance (np_random w) (nrows d * S nh);
      stdout := stdout w |}).
Proof.
  intros Hs Hw Hnv Hnh [Hd Hdwf] Hdc. unfold run_visible.
  erewrite bind_get_array by exact Hd.
  rewrite (bind_attr _ _ _ _ _ Hs), Hnh, Nat.add_1_r.
  rewrite (bind_attr_weights _ _ _ _ _ Hs Hw).
  rewrite (np_insert_col_augmented d Hdwf), Hdc.
  rewrite bind_lift, np_dot_tabulate.
  unfold _logistic. rewrite nd_map_tabulate.
  rewrite (bind_attr _ _ _ _ _ Hs), Hnh, Nat.add_1_r.
  rewrite bind_rand. unfold draw2.
  rewrite bind_lift. unfold np_greater. rewrite broadcast2_tabulate.
  rewrite bind_lift. unfold np_ones. rewrite np_assign_tabulate.
  rewrite drop_col0_tabulate. reflexivity.
Qed.

Lemma run_hidden_tabulated self data r nv nh d W w :
  heap w !! self = Some (Instance r) ->
  heap w !! weights r = Some (Array (tabulate (S nv) (S nh) (get W))) ->
  num_visible r = nv -> num_hidden r = nh ->
  array_at w data d ->
  ncols d = nh ->
  run_hidden self data w =
  (Ok (tabulate (nrows d) nv
         (fun k i => Sample.visible nv nh d W (np_random w) k (S i))),
   {| heap := heap w;
      np_random := advance (np_random w) (nrows d * S nv);
      stdout := stdout w |}).
Proof.
  intros Hs Hw Hnv Hnh [Hd Hdwf] Hdc. unfold run_hidden.
  erewrite bind_get_array by exact Hd.
  rewrite (bind_attr _ _ _ _ _ Hs), Hnv, Nat.add_1_r.
  rewrite (bind_attr_weights _ _ _ _ _ Hs Hw).
  rewrite (np_insert_col_augmented d Hdwf), Hdc.
  rewrite bind_lift, np_T_tabulate, np_dot_tabulate.
  unfold _logistic. rewrite nd_map_tabulate.
  rewrite (bind_attr _ _ _ _ _ Hs), Hnv, Nat.add_1_r.
  rewrite bind_rand. unfold draw2.
  rewrite bind_lift. unfold np_greater. rewrite broadcast2_tabulate.
  rewrite bind_lift. unfold np_ones. rewrite np_assign_tabulate.
  rewrite drop_col0_tabulate. reflexivity.
Qed.

Lemma rbm_at_tabulated w self r W :
  rbm_at w self r W ->
  heap w !! weights r =
  Some (Array (tabulate (S (num_visible r)) (S (num_hidden r)) (get W))).
Proof.
  intros (_ & Hw & Hwf & Hr & Hc). now rewrite <- Hr, <- Hc, (tabulate_get W Hwf).
Qed.

(** C3. On input with [num_visible] columns [run_visible] returns an array
    of [num_examples] rows and [num_hidden] columns whose entries are 0 or 1;
    on input with [num_hidden] columns [run_hidden] returns an array of
    [num_examples] rows and [num_visible] columns whose entries are 0 or 1.
    The column that is left out is column 0 of the sampled array, the bias
    unit: entry [(k, j)] of the result is the sampled unit [j + 1]. *)
Theorem run_visible_run_hidden_binary self data r W d w :
  rbm_at w self r W ->
  array_at w data d ->
  (ncols d = num_visible r ->
     exists out w',
       run_visible self data w = (Ok out, w') /\
       shape out = (nrows d, num_hidden r) /\
       well_formed out /\
       all_binary out /\
       forall k j, (k < nrows d)%nat -> (j < num_hidden r)%nat ->
         get out k j =
         Sample.hidden (num_visible r) (num_hidden r) d W (np_random w) k (S j)) /\
  (ncols d = num_hidden r ->
     exists out w',
       run_hidden self data w = (Ok out, w') /\
       shape out = (nrows d, num_visible r) /\
       well_formed out /\
       all_binary out /\
       forall k i, (k < nrows d)%nat -> (i < num_visible r)%nat ->
         get out k i =
         Sample.visible (num_visible r) (num_hidden r) d W (np_random w) k (S i)).
Proof.
  intros HW Hd. pose proof (rbm_at_tabulated _ _ _ _ HW) as Hw.
  destruct HW as (Hs & _). split; intros Hdc.
  - rewrite (run_visible_tabulated _ _ _ _ _ _ _ _ Hs Hw eq_refl eq_refl Hd Hdc).
    eexists. eexists. split; [reflexivity |].
    split; [unfold shape; now rewrite nrows_tabulate |].
    split; [apply well_formed_tabulate |]. split.
    + apply all_binary_tabulate. intros. apply is_binary_of_bool.
    + intros k j Hk Hj. now rewrite get_tabulate by assumption.
  - rewrite (run_hidden_tabulated _ _ _ _ _ _ _ _ Hs Hw eq_refl eq_refl Hd Hdc).
    eexists. eexists. split; [reflexivity |].
    split; [unfold shape; now rewrite nrows_tabulate |].
    split; [apply well_formed_tabulate |]. split.
    + apply all_binary_tabulate. intros. apply is_binary_of_bool.
    + intros k j Hk Hj. now rewrite get_tabulate by assumption.
Qed.

Lemma run_visible_run_hidden_binary_witness :
  (exists out w',
     run_visible Example.self Example.data_ref Example.world0 = (Ok out, w') /\
     shape out = (2%nat, 1%nat) /\ all_binary out) /\
  (exists out w',
     run_hidden Example.self Example.data_ref Example.world0 = (Ok out, w') /\
     shape out = (2%nat, 1%nat) /\ all_binary out).
Proof.
  destruct (run_visible_run_hidden_binary Example.self Example.data_ref
              Example.rbm Example.W0 Example.data Example.world0
              example_rbm_at example_data_at) as [Hv Hh].
  split.
  - destruct (Hv eq_refl) as (out & w' & Hrun & Hshape & _ & Hbin & _).
    exists out, w'. auto.
  - destruct (Hh eq_refl) as (out & w' & Hrun & Hshape & _ & Hbin & _).
    exists out, w'. auto.
Defined.

(** ** C4 and C5: daydreaming *)

Lemma map_vtabulate f n g : map f (vtabulate n g) = vtabulate n (fun i => f (g i)).
Proof. unfold vtabulate. now rewrite map_map. Qed.

Lemma set_item0_vtabulate n g x :
  set_item0 (vtabulate (S n) g) x =
  Ok (vtabulate (S n) (fun j => if (j =? 0)%nat then x else g j)).
Proof.
  unfold vtabulate. cbn [seq map set_item0]. do 2 f_equal.
  apply map_ext_in. intros j Hj. apply in_seq in Hj.
  destruct j; [lia | reflexivity].
Qed.

Lemma nth_insert_eq {A} (l : list A) i x d :
  (i < length l)%nat -> nth i (<[i := x]> l) d = x.
Proof.
  intros Hi. rewrite nth_lookup, list_lookup_insert_eq by assumption. reflexivity.
Qed.

Lemma nth_insert_ne {A} (l : list A) i j x d :
  i <> j -> nth j (<[i := x]> l) d = nth j l d.
Proof.
  intros Hne. now rewrite !nth_lookup, list_lookup_insert_ne by assumption.
Qed.

Lemma well_formed_row a i :
  well_formed a -> (i < nrows a)%nat -> length (nth i (rows a) []) = ncols a.
Proof.
  intros Hwf Hi. unfold well_formed in Hwf. rewrite List.Forall_forall in Hwf.
  apply Hwf. now apply nth_In.
Qed.

Lemma daydream_step_run self r W i samples w :
  rbm_at w self r W ->
  well_formed samples ->
  ncols samples = S (num_visible r) ->
  (1 <= i)%nat -> (i < nrows samples)%nat ->
  daydream_step self i samples w =
  (Ok {| ncols := ncols samples;
         rows := <[i := Gibbs.next_row (num_visible r) (num_hidden r) W
                           (np_random w) (nth (i - 1) (rows samples) [])]>
                   (rows samples) |},
   {| heap := heap w;
      np_random := advance (advance (np_random w) (S (num_hidden r)))
                     (S (num_visible r));
      stdout := stdout w |}).
Proof.
  intros (Hs & Hw & Hwf & Hr & Hc) Hswf Hsc Hi1 Hi.
  set (visible := nth (i - 1) (rows samples) []).
  assert (Hlen : length visible = S (num_visible r)).
  { subst visible. rewrite well_formed_row by (assumption || lia). exact Hsc. }
  unfold daydream_step.
  rewrite bind_lift. unfold get_row.
  destruct (Nat.ltb_spec (i - 1) (nrows samples)) as [_|?]; [| lia].
  fold visible.
  rewrite (bind_attr_weights _ _ _ _ _ Hs Hw).
  rewrite bind_lift. unfold np_dot1 at 1. rewrite Hlen, Hr, Nat.eqb_refl, Hc.
  unfold _logistic1 at 1. rewrite map_vtabulate.
  rewrite (bind_attr _ _ _ _ _ Hs), Nat.add_1_r, bind_rand1.
  unfold draw1 at 1.
  rewrite bind_lift. unfold np_greater1 at 1. rewrite broadcast1_vtabulate.
  rewrite bind_lift, set_item0_vtabulate.
  erewrite bind_attr_weights; [| exact Hs | exact Hw].
  rewrite bind_lift. unfold np_dot1.
  rewrite length_vtabulate. unfold np_T at 1. rewrite nrows_tabulate, Hc, Nat.eqb_refl.
  unfold np_T. rewrite ncols_tabulate, Hr.
  unfold _logistic1. rewrite map_vtabulate.
  erewrite bind_attr; [| exact Hs]. rewrite Nat.add_1_r, bind_rand1.
  unfold draw1.
  rewrite bind_lift. unfold np_greater1. rewrite broadcast1_vtabulate.
  cbn [np_random heap stdout].
  unfold lift, set_row.
  destruct (Nat.ltb_spec i (nrows samples)) as [_|?]; [| lia].
  unfold broadcast_to. rewrite length_vtabulate, Hsc, Nat.eqb_refl. cbn [obind].
  do 4 f_equal. unfold Gibbs.next_row.
  apply vtabulate_ext. intros i' Hi'. unfold Gibbs.visible_states, advance.
  do 3 f_equal. apply fsum_ext. intros j Hj.
  rewrite vget_vtabulate by assumption.
  rewrite Hc, get_tabulate by (assumption || lia). reflexivity.
Qed.

Lemma rbm_at_same_heap w w' self r W :
  heap w' = heap w -> rbm_at w self r W -> rbm_at w' self r W.
Proof. unfold rbm_at. now intros ->. Qed.

Lemma next_row_binary nv nh W g visible :
  Forall is_binary (Gibbs.next_row nv nh W g visible).
Proof.
  unfold Gibbs.next_row, vtabulate. apply List.Forall_forall. intros x Hx.
  apply in_map_iff in Hx. destruct Hx as (i & <- & _).
  apply is_binary_of_bool.
Qed.

Lemma dream_inv_step nv n row0 s i v :
  dream_inv nv n row0 s ->
  (1 <= i)%nat -> (i < n)%nat ->
  length v = S nv -> Forall is_binary v ->
  dream_inv nv n row0 {| ncols := ncols s; rows := <[i := v]> (rows s) |}.
Proof.
  intros (Hc & Hr & Hwf & H0 & Hbin) Hi1 Hi Hlen Hv.
  unfold dream_inv, nrows, well_formed in *. cbn [ncols rows].
  split; [exact Hc |]. split; [now rewrite length_insert |].
  split; [apply Forall_insert; [exact Hwf | congruence] |].
  split; [rewrite nth_insert_ne by lia; exact H0 |].
  intros i' Hi1' Hi'. destruct (Nat.eq_dec i i') as [<-|Hne].
  - rewrite nth_insert_eq by lia. exact Hv.
  - rewrite nth_insert_ne by assumption. now apply Hbin.
Qed.

Lemma for_range_daydream_step self r W nv n row0 count :
  num_visible r = nv ->
  forall start s w,
  rbm_at w self r W ->
  dream_inv nv n row0 s ->
  (1 <= start)%nat -> (start + count <= n)%nat ->
  exists s' w',
    for_range start count (daydream_step self) s w = (Ok s', w') /\
    dream_inv nv n row0 s' /\
    heap w' = heap w /\ stdout w' = stdout w.
Proof.
  intros Hnv. induction count as [|count IH]; intros start s w HW Hinv H1 Hle.
  - exists s, w. cbn. auto.
  - cbn [for_range]. unfold bind at 1.
    pose proof Hinv as (Hc & Hr & Hwf & _).
    rewrite (daydream_step_run self r W start s w HW Hwf)
      by (try rewrite Hnv; try rewrite Hr; assumption || lia).
    match goal with
    | |- context [for_range _ _ _ ?s1 ?w1] =>
        destruct (IH (S start) s1 w1) as (s' & w' & Hrun & Hinv' & Hh & Ho)
    end.
    + eapply rbm_at_same_heap; [| exact HW]. reflexivity.
    + apply dream_inv_step; try assumption; try lia.
      * unfold Gibbs.next_row. rewrite length_vtabulate. now rewrite Hnv.
      * apply next_row_binary.
    + lia.
    + lia.
    + exists s', w'. rewrite Hrun. auto.
Qed.

Lemma ones_binary n : Forall is_binary (vtabulate n (fun _ => Fin 1)).
Proof.
  unfold vtabulate. apply List.Forall_forall. intros x Hx.
  apply in_map_iff in Hx. destruct Hx as (i & <- & _). now right.
Qed.

(** [samples] when the loop is entered: ones, with the draws in row 0. *)
Lemma dream_inv_init nv n g :
  (0 < n)%nat ->
  dream_inv nv n (Fin 1 :: draw1 g nv)
    {| ncols := S nv;
       rows := <[0%nat := [Fin 1] ++ draw1 g nv]> (rows (np_ones n (S nv))) |}.
Proof.
  intros Hn. unfold dream_inv, nrows, well_formed. cbn [ncols rows].
  assert (Hlen : length (rows (np_ones n (S nv))) = n)
    by apply nrows_tabulate.
  split; [reflexivity |]. split; [now rewrite length_insert |].
  split; [| split].
  - apply Forall_insert; [apply (well_formed_tabulate n (S nv)) |].
    cbn. unfold draw1. now rewrite length_vtabulate.
  - rewrite nth_insert_eq by lia. reflexivity.
  - intros i Hi1 Hi. rewrite nth_insert_ne by lia.
    unfold np_ones.
    rewrite (row_tabulate n (S nv) (fun _ _ => Fin 1) i Hi). apply ones_binary.
Qed.

Lemma daydream_loop_run self r W n passes w :
  rbm_at w self r W ->
  (0 < n)%nat -> (passes < n)%nat ->
  exists s w',
    daydream_loop self n passes w = (Ok s, w') /\
    dream_inv (num_visible r) n (Fin 1 :: draw1 (np_random w) (num_visible r)) s /\
    heap w' = heap w /\ stdout w' = stdout w.
Proof.
  intros HW Hn Hp. pose proof HW as (Hs & _). unfold daydream_loop.
  rewrite (bind_attr _ _ _ _ _ Hs), (bind_attr _ _ _ _ _ Hs), Nat.add_1_r.
  rewrite bind_rand1, bind_lift.
  unfold set_row_tail. unfold np_ones at 1 2. rewrite nrows_tabulate, ncols_tabulate.
  destruct (Nat.ltb_spec 0 n) as [_|?]; [| lia].
  unfold broadcast_to, draw1 at 1. rewrite length_vtabulate, Nat.eqb_refl.
  cbn [obind Nat.pred].
  replace (nth 0 (rows (np_ones n (S (num_visible r)))) [])
    with (vtabulate (S (num_visible r)) (fun _ => Fin 1))
    by (symmetry; apply (row_tabulate n _ (fun _ _ => Fin 1) 0 Hn)).
  change (firstn 1 (vtabulate (S (num_visible r)) (fun _ => Fin 1)))
    with [Fin 1].
  match goal with
  | |- context [for_range _ _ _ ?s1 ?w1] =>
      destruct (for_range_daydream_step self r W (num_visible r) n
                  (Fin 1 :: draw1 (np_random w) (num_visible r)) passes
                  eq_refl 1%nat s1 w1)
        as (s' & w' & Hrun & Hinv' & Hh & Ho)
  end.
  - eapply rbm_at_same_heap; [| exact HW]. reflexivity.
  - now apply dream_inv_init.
  - lia.
  - lia.
  - exists s', w'. rewrite Hrun. auto.
Qed.

Lemma row_drop_col0 a i : nth i (rows (drop_col0 a)) [] = tl (nth i (rows a) []).
Proof.
  unfold drop_col0; cbn [rows].
  now rewrite <- (map_nth (@tl npfloat) (rows a) [] i).
Qed.

(** C4. For a positive [num_samples], [daydream] returns an array of
    [num_samples] rows and [num_visible] columns (the bias column is left
    out).  Row 0 holds the first [num_visible] uniform draws as they come, not
    thresholded, so its entries lie in [0, 1) when the draws do; every entry of
    the rows 1 to [num_samples - 1] is 0 or 1. *)
Theorem daydream_rows self r W num_samples w :
  rbm_at w self r W ->
  (0 < num_samples)%nat ->
  (forall k, 0 <= np_random w k < 1) ->
  exists out w',
    daydream self num_samples w = (Ok out, w') /\
    shape out = (num_samples, num_visible r) /\
    well_formed out /\
    (forall j, (j < num_visible r)%nat ->
       exists u, get out 0 j = Fin u /\ u = np_random w j /\ 0 <= u < 1) /\
    (forall i j, (1 <= i)%nat -> (i < num_samples)%nat ->
       (j < num_visible r)%nat -> is_binary (get out i j)).
Proof.
  intros HW Hn Hdraws. unfold daydream, bind at 1.
  destruct (daydream_loop_run self r W num_samples (num_samples - 1) w HW Hn)
    as (s & w' & Hrun & (Hc & Hr & Hwf & H0 & Hbin) & _); [lia |].
  rewrite Hrun. exists (drop_col0 s), w'. split; [reflexivity |].
  split; [| split; [| split]].
  - unfold shape, nrows, drop_col0; cbn [rows ncols].
    rewrite length_map. fold (nrows s). now rewrite Hr, Hc.
  - unfold well_formed, drop_col0; cbn [rows ncols].
    apply List.Forall_forall. intros x Hx.
    apply in_map_iff in Hx. destruct Hx as (row & <- & Hrow).
    unfold well_formed in Hwf. rewrite List.Forall_forall in Hwf.
    specialize (Hwf row Hrow). destruct row; cbn in *; lia.
  - intros j Hj. exists (np_random w j). split; [| split; [reflexivity | apply Hdraws]].
    unfold get. rewrite row_drop_col0, H0. cbn [tl].
    unfold draw1. now rewrite vget_vtabulate.
  - intros i j Hi1 Hi Hj. unfold get. rewrite row_drop_col0.
    specialize (Hbin i Hi1 Hi).
    assert (Hlen : length (nth i (rows s) []) = S (num_visible r)).
    { rewrite well_formed_row by (assumption || lia). exact Hc. }
    destruct (nth i (rows s) []) as [|b row]; [discriminate |].
    cbn [tl]. inversion Hbin as [|? ? _ Hrow]; subst.
    rewrite List.Forall_forall in Hrow. apply Hrow.
    unfold vget. apply nth_In. cbn in Hlen. lia.
Qed.

Lemma daydream_rows_witness :
  exists out w',
    daydream Example.self 10 Example.world0 = (Ok out, w') /\
    shape out = (10%nat, 1%nat) /\
    (forall i j, (1 <= i)%nat -> (i < 10)%nat -> (j < 1)%nat ->
       is_binary (get out i j)).
Proof.
  destruct (daydream_rows Example.self Example.rbm Example.W0 10 Example.world0
              example_rbm_at) as (out & w' & Hrun & Hshape & _ & _ & Hbin).
  - lia.
  - intros k. cbn. unfold Example.constant. lra.
  - exists out, w'. auto.
Defined.

(** ** C5: the bias unit of the visible sample *)

Lemma fsum_zero n f :
  (forall k, (k < n)%nat -> f k = Fin 0) -> fsum n f = Fin 0.
Proof.
  intros H. unfold fsum.
  assert (G : forall l a, (forall k, In k l -> f k = Fin 0) ->
            fold_left (fun acc k => fadd acc (f k)) l (Fin a) = Fin a).
  { induction l as [|x l IH]; intros a Hl; cbn [fold_left]; [reflexivity |].
    rewrite (Hl x) by now left. cbn [fadd]. rewrite Rplus_0_r.
    apply IH. intros k Hk. apply Hl. now right. }
  apply G. intros k Hk. apply in_seq in Hk. apply H. lia.
Qed.

Lemma logistic1_zero : logistic1 (Fin 0) = Fin (1 / 2).
Proof.
  rewrite logistic1_Fin. f_equal. rewrite Ropp_0, exp_0. lra.
Qed.

(** When the weights of row 0 are zero, as they are after construction, the
    visible bias unit is on with probability 1/2: the step stores a 0 there
    whenever its draw is 1/2 or more. *)
Lemma visible_bias_sampled nv nh W g visible :
  (forall j, (j <= nh)%nat -> get W 0 j = Fin 0) ->
  1 / 2 <= g (S nh) ->
  Gibbs.visible_states nv nh W g visible 0 = Fin 0.
Proof.
  intros Hrow Hdraw. unfold Gibbs.visible_states.
  rewrite fsum_zero.
  - rewrite logistic1_zero, Nat.add_0_r, fgt_Fin_false by exact Hdraw.
    reflexivity.
  - intros j Hj. rewrite Hrow by lia. unfold Gibbs.hidden_states.
    destruct (j =? 0)%nat; [| destruct (fgt _ _)]; cbn [of_bool fmul];
      f_equal; lra.
Qed.

(** C5 on the machine of [Example], whose draws are all 3/4: after the first
    pass of the loop of [daydream(3)] the row 1 of [samples] has a 0 in its
    bias cell, and the second pass (i = 2) reads that row as its [visible]. *)
Theorem daydream_reads_unclamped_bias :
  exists samples w' x,
    daydream_loop Example.self 3 1 Example.world0 = (Ok samples, w') /\
    get_row samples (2 - 1) = Ok [Fin 0; x].
Proof.
  pose proof example_rbm_at as HW. pose proof HW as (Hs & _).
  unfold daydream_loop.
  rewrite (bind_attr _ _ _ _ _ Hs), (bind_attr _ _ _ _ _ Hs), bind_rand1.
  rewrite bind_lift.
  change (set_row_tail (np_ones 3 (num_visible Example.rbm + 1)) 0
            (draw1 (np_random Example.world0) (num_visible Example.rbm)))
    with (Ok {| ncols := 2;
                rows := <[0%nat := [Fin 1] ++ draw1 (Example.constant (3 / 4)) 1]>
                          (rows (np_ones 3 2)) |}).
  cbn [for_range]. unfold bind at 1.
  erewrite (daydream_step_run Example.self Example.rbm Example.W0).
  - unfold ret. eexists. eexists. eexists. split; [reflexivity |].
    unfold get_row, nrows. cbn [rows Nat.sub]. rewrite !length_insert.
    change (1 <? _)%nat with true. cbv iota.
    rewrite nth_insert_eq by (rewrite length_insert; cbn; lia).
    unfold Gibbs.next_row, vtabulate. cbn [seq map].
    rewrite visible_bias_sampled; [reflexivity | |].
    + intros [|[|j]] Hj; cbn in *; try reflexivity; lia.
    + cbn. unfold Example.constant. lra.
  - eapply rbm_at_same_heap; [| exact HW]. reflexivity.
  - apply (dream_inv_init 1 3 (Example.constant (3 / 4))). lia.
  - reflexivity.
  - lia.
  - unfold nrows. cbn [rows]. rewrite length_insert. cbn. lia.
Qed.

(** ** C2 and C10: construction *)

Lemma py_truediv_6 n :
  (0 < n)%nat -> py_truediv (Fin 6) (of_nat n) = Ok (Fin (6 / INR n)).
Proof.
  intros Hn. unfold py_truediv, of_nat. cbn [fdiv].
  now rewrite Rsign_pos by (apply lt_0_INR; lia).
Qed.

Lemma py_truediv_by_zero x :
  py_truediv x (of_nat 0) = Raise ZeroDivisionError.
Proof. unfold py_truediv, of_nat. now rewrite Rsign_zero by reflexivity. Qed.

Lemma fsqrt_pos q : 0 < q -> fsqrt (Fin q) = Fin (sqrt q).
Proof. intros Hq. unfold fsqrt. now rewrite Rsign_pos. Qed.

Lemma uniform_weights g nv nh :
  (0 < nh + nv)%nat ->
  np_insert_col
    (np_insert_row
       (uniform g
          (fmul (Fin (- (1 / 10))) (fsqrt (Fin (6 / INR (nh + nv)))))
          (fmul (Fin (1 / 10)) (fsqrt (Fin (6 / INR (nh + nv)))))
          nv nh)
       (Fin 0))
    (Fin 0) =
  Glorot.initial_weights g nv nh.
Proof.
  intros Hn.
  assert (Hq : 0 < 6 / INR (nh + nv)).
  { apply Rdiv_lt_0_compat; [lra | apply lt_0_INR; lia]. }
  rewrite (fsqrt_pos _ Hq). cbn [fmul]. unfold uniform.
  rewrite np_insert_row_tabulate, np_insert_col_tabulate.
  apply tabulate_ext. intros i j _ _. unfold Glorot.entry, Glorot.bound.
  destruct j as [|j]; [reflexivity |]. destruct i as [|i]; [reflexivity |].
  cbn [fsub fneg fadd fmul]. f_equal. lra.
Qed.

Lemma init_run RandomState nv nh w :
  (0 < nh + nv)%nat ->
  let wl := fresh (dom (heap w)) in
  let h1 := <[wl := Array (Glorot.initial_weights (RandomState 1234%Z) nv nh)]>
              (heap w) in
  let self := fresh (dom h1) in
  __init__ RandomState nv nh w =
  (Ok self,
   {| heap := <[self := Instance {| num_hidden := nh; num_visible := nv;
                                   debug_print := false; weights := wl |}]> h1;
      np_random := np_random w;
      stdout := stdout w |}).
Proof.
  intros Hn wl h1 self. unfold __init__.
  rewrite bind_lift, py_truediv_6 by assumption.
  rewrite bind_lift.
  rewrite uniform_weights by assumption. reflexivity.
Qed.

Lemma init_no_units RandomState w :
  __init__ RandomState 0 0 w = (Raise ZeroDivisionError, w).
Proof.
  unfold __init__. rewrite bind_lift.
  change (of_nat (0 + 0)) with (of_nat 0). now rewrite py_truediv_by_zero.
Qed.

Lemma init_weights_of RandomState nv nh w :
  (0 < nh + nv)%nat ->
  weights_of (__init__ RandomState nv nh w) =
  Some (Glorot.initial_weights (RandomState 1234%Z) nv nh).
Proof.
  intros Hn. rewrite (init_run RandomState nv nh w Hn).
  unfold weights_of. cbn [fst snd heap].
  set (wl := fresh (dom (heap w))).
  set (h1 := <[wl := _]> (heap w)).
  set (self := fresh (dom h1)).
  assert (Hne : self <> wl).
  { intros E. apply (is_fresh (dom h1)). fold self. rewrite E.
    subst h1. rewrite dom_insert_L.
    apply elem_of_union. left. now apply elem_of_singleton. }
  rewrite lookup_insert_eq. cbn [weights].
  rewrite lookup_insert_ne by exact Hne.
  subst h1. now rewrite lookup_insert_eq.
Qed.

Lemma bound_pos nv nh : (0 < nh + nv)%nat -> 0 < Glorot.bound nv nh.
Proof.
  intros Hn. unfold Glorot.bound.
  assert (0 < sqrt (6 / INR (nh + nv))).
  { apply sqrt_lt_R0, Rdiv_lt_0_compat; [lra | apply lt_0_INR; lia]. }
  lra.
Qed.

(** C2. For positive [num_visible] and [num_hidden] the constructor returns
    an instance whose weight matrix has [num_visible + 1] rows and
    [num_hidden + 1] columns; its entry [0,0], its row 0 and its column 0 are
    zero; every other entry is [low + (high - low) * u] for a draw [u] of the
    constructor's generator, where [high = 0.1 * sqrt(6 / (num_hidden +
    num_visible))] and [low = - high], so it lies in [low, high) when the draws
    lie in [0, 1). *)
Theorem init_weight_matrix RandomState nv nh w :
  (0 < nv)%nat ->
  (0 < nh)%nat ->
  (forall k, 0 <= RandomState 1234%Z k < 1) ->
  exists self w' r W,
    __init__ RandomState nv nh w = (Ok self, w') /\
    rbm_at w' self r W /\
    num_visible r = nv /\ num_hidden r = nh /\
    shape W = ((nv + 1)%nat, (nh + 1)%nat) /\
    get W 0 0 = Fin 0 /\
    (forall j, (j <= nh)%nat -> get W 0 j = Fin 0) /\
    (forall i, (i <= nv)%nat -> get W i 0 = Fin 0) /\
    (forall i j, (1 <= i <= nv)%nat -> (1 <= j <= nh)%nat ->
       let high := 1 / 10 * sqrt (6 / INR (nh + nv)) in
       let u := RandomState 1234%Z ((i - 1) * nh + (j - 1))%nat in
       exists x, get W i j = Fin x /\
                 x = - high + (high - - high) * u /\
                 - high <= x < high).
Proof.
  intros Hnv Hnh Hdraws.
  assert (Hn : (0 < nh + nv)%nat) by lia.
  pose proof (init_run RandomState nv nh w Hn) as Hrun. cbv zeta in Hrun.
  set (W := Glorot.initial_weights (RandomState 1234%Z) nv nh) in *.
  set (wl := fresh (dom (heap w))) in *.
  set (h1 := <[wl := Array W]> (heap w)) in *.
  set (self := fresh (dom h1)) in *.
  assert (Hne : self <> wl).
  { intros E. apply (is_fresh (dom h1)). fold self. rewrite E.
    subst h1. rewrite dom_insert_L.
    apply elem_of_union. left. now apply elem_of_singleton. }
  exists self.
  eexists.
  exists {| num_hidden := nh; num_visible := nv; debug_print := false;
            weights := wl |}, W.
  split; [exact Hrun |].
  split; [| split; [reflexivity | split; [reflexivity |]]].
  - unfold rbm_at. cbn [heap weights num_visible num_hidden].
    rewrite lookup_insert_eq, lookup_insert_ne by exact Hne.
    subst h1. rewrite lookup_insert_eq.
    repeat split; try reflexivity.
    + apply well_formed_tabulate.
    + apply nrows_tabulate.
  - split; [unfold shape; subst W; unfold Glorot.initial_weights;
            rewrite nrows_tabulate, ncols_tabulate; f_equal; lia |].
    subst W. unfold Glorot.initial_weights.
    split; [rewrite get_tabulate by lia; reflexivity |].
    split; [intros j Hj; rewrite get_tabulate by lia;
            unfold Glorot.entry; now destruct j |].
    split; [intros i Hi; rewrite get_tabulate by lia; reflexivity |].
    intros i j Hi Hj.
    rewrite get_tabulate by lia.
    destruct i as [|i]; [lia |]. destruct j as [|j]; [lia |].
    unfold Glorot.entry. fold (Glorot.bound nv nh).
    replace (S i - 1)%nat with i by lia.
    replace (S j - 1)%nat with j by lia.
    eexists. split; [reflexivity |].
    pose proof (bound_pos nv nh Hn) as Hb.
    pose proof (Hdraws (i * nh + j)%nat) as Hu.
    split; [lra | nra].
Qed.

Lemma init_weight_matrix_witness :
  exists self w' r W,
    __init__ (fun _ => Example.constant (1 / 2)) 6 3 Example.world0 =
      (Ok self, w') /\
    rbm_at w' self r W /\
    shape W = (7%nat, 4%nat) /\
    get W 0 0 = Fin 0.
Proof.
  destruct (init_weight_matrix (fun _ => Example.constant (1 / 2)) 6 3
              Example.world0)
    as (self & w' & r & W & Hrun & Hat & _ & _ & Hshape & H00 & _).
  - lia.
  - lia.
  - intros k. unfold Example.constant. lra.
  - exists self, w', r, W. auto.
Defined.

(** C10. Construction takes nothing from the world it runs in: two
    constructor calls with the same [num_visible] and [num_hidden] build the
    same weight matrix whatever the heap and the state of the module-level
    generator [np.random], which the call leaves as it was.  The matrix is a
    function of the stream of the constructor's own generator, seeded with
    1234. *)
Theorem init_deterministic RandomState nv nh w1 w2 :
  weights_of (__init__ RandomState nv nh w1) =
  weights_of (__init__ RandomState nv nh w2) /\
  np_random (snd (__init__ RandomState nv nh w1)) = np_random w1 /\
  ((0 < nh + nv)%nat ->
   weights_of (__init__ RandomState nv nh w1) =
   Some (Glorot.initial_weights (RandomState 1234%Z) nv nh)).
Proof.
  destruct (Nat.eq_dec (nh + nv) 0)%nat as [E|E].
  - assert (nh = 0%nat) by lia. assert (nv = 0%nat) by lia. subst.
    rewrite !init_no_units. split; [reflexivity |]. split; [reflexivity | lia].
  - assert (Hn : (0 < nh + nv)%nat) by lia.
    rewrite !init_weights_of by exact Hn.
    split; [reflexivity |]. split; [| reflexivity].
    now rewrite (init_run RandomState nv nh w1 Hn).
Qed.

Lemma init_deterministic_witness :
  weights_of (__init__ (fun _ => Example.constant (1 / 2)) 6 3 Example.world0) =
  weights_of (__init__ (fun _ => Example.constant (1 / 2)) 6 3
                {| heap := ∅; np_random := Example.constant (1 / 4);
                   stdout := [] |}) /\
  weights_of (__init__ (fun _ => Example.constant (1 / 2)) 6 3 Example.world0) =
  Some (Glorot.initial_weights (Example.constant (1 / 2)) 6 3).
Proof.
  destruct (init_deterministic (fun _ => Example.constant (1 / 2)) 6 3
              Example.world0
              {| heap := ∅; np_random := Example.constant (1 / 4);
                 stdout := [] |}) as (Heq & _ & Hsome).
  split; [exact Heq | apply Hsome; lia].
Defined.

(** ** C8: the logistic function *)

Lemma logistic_value_bounds x : 0 < 1 / (1 + exp (- x)) < 1.
Proof.
  pose proof (exp_pos (- x)) as He.
  split.
  - apply Rdiv_lt_0_compat; lra.
  - apply (Rmult_lt_reg_r (1 + exp (- x))); [lra |].
    unfold Rdiv. rewrite Rmult_assoc, Rinv_l by lra. lra.
Qed.

Lemma logistic_value_increasing x y :
  x < y -> 1 / (1 + exp (- x)) < 1 / (1 + exp (- y)).
Proof.
  intros Hxy.
  pose proof (exp_pos (- x)) as Hx. pose proof (exp_pos (- y)) as Hy.
  assert (Hexp : exp (- y) < exp (- x)) by (apply exp_increasing; lra).
  unfold Rdiv. rewrite !Rmult_1_l.
  apply Rinv_lt_contravar; [| lra].
  apply Rmult_lt_0_compat; lra.
Qed.

(** At the infinities the function takes its limits, and NaN stays NaN. *)
Lemma logistic1_special :
  logistic1 PInf = Fin 1 /\ logistic1 NInf = Fin 0 /\ logistic1 NaN = NaN.
Proof.
  unfold logistic1. cbn [fneg fexp fadd fdiv]. repeat split.
  rewrite Rsign_pos by lra. f_equal. lra.
Qed.

(** [_logistic] and [logistic] apply [logistic1] to every entry. *)
Lemma logistic_entry x i j :
  well_formed x -> (i < nrows x)%nat -> (j < ncols x)%nat ->
  get (_logistic x) i j = logistic1 (get x i j) /\
  get (logistic x) i j = logistic1 (get x i j).
Proof.
  intros Hwf Hi Hj. unfold _logistic, logistic.
  split; rewrite <- (tabulate_get x Hwf) at 1;
    now rewrite nd_map_tabulate, get_tabulate by assumption.
Qed.

(** C8, in exact arithmetic.  [logistic(0) = 0.5]; on finite inputs the
    logistic function is strictly increasing, and its value is a finite number
    strictly between 0 and 1.  (Numbers are exact here, see [npfloat]; what
    rounding does to the bounds is in [Rounding] below.) *)
Theorem logistic_properties :
  logistic1 (Fin 0) = Fin (1 / 2) /\
  (forall x y, x < y ->
     exists a b, logistic1 (Fin x) = Fin a /\ logistic1 (Fin y) = Fin b /\ a < b) /\
  (forall x, exists a, logistic1 (Fin x) = Fin a /\ 0 < a < 1).
Proof.
  split; [exact logistic1_zero |]. split.
  - intros x y Hxy. exists (1 / (1 + exp (- x))), (1 / (1 + exp (- y))).
    rewrite !logistic1_Fin. split; [reflexivity |]. split; [reflexivity |].
    now apply logistic_value_increasing.
  - intros x. exists (1 / (1 + exp (- x))). rewrite logistic1_Fin.
    split; [reflexivity | apply logistic_value_bounds].
Qed.

Lemma logistic_properties_witness :
  exists a b, logistic1 (Fin 0) = Fin a /\ logistic1 (Fin 1) = Fin b /\ a < b.
Proof.
  destruct logistic_properties as (_ & Hmono & _).
  apply (Hmono 0 1). lra.
Defined.

(** *** The logistic function with rounding *)

Module Rounding.
Import PrimFloat.

(** In binary64 the sum [1 + exp(-40)] rounds to 1, and so does the
    quotient. *)
Lemma float64_logistic_40 np_exp :
  np_exp (-40)%float = Float64.exp_m40 ->
  Float64.logistic np_exp 40%float = 1%float.
Proof.
  intros E. unfold Float64.logistic.
  change (PrimFloat.opp 40%float) with (-40)%float. rewrite E. reflexivity.
Qed.

Lemma float64_logistic_41 np_exp :
  np_exp (-41)%float = Float64.exp_m41 ->
  Float64.logistic np_exp 41%float = 1%float.
Proof.
  intros E. unfold Float64.logistic.
  change (PrimFloat.opp 41%float) with (-41)%float. rewrite E. reflexivity.
Qed.

Lemma float64_logistic_0 np_exp :
  np_exp (-0)%float = 1%float ->
  Float64.logistic np_exp 0%float = 0.5%float.
Proof.
  intros E. unfold Float64.logistic.
  change (PrimFloat.opp 0%float) with (-0)%float. rewrite E. reflexivity.
Qed.

(** C8 as stated fails in binary64: with an exponential that is correctly
    rounded at -40 and -41, the logistic function is exactly 1 at the finite
    inputs 40 and 41, so it is neither below 1 nor strictly increasing
    there. *)
Lemma float64_logistic_saturates :
  exists np_exp : float -> float,
    np_exp (-40)%float = Float64.exp_m40 /\
    np_exp (-41)%float = Float64.exp_m41 /\
    PrimFloat.ltb 40%float 41%float = true /\
    Float64.logistic np_exp 40%float = 1%float /\
    Float64.logistic np_exp 41%float = 1%float /\
    PrimFloat.ltb (Float64.logistic np_exp 40%float) 1%float = false /\
    PrimFloat.ltb (Float64.logistic np_exp 40%float)
                  (Float64.logistic np_exp 41%float) = false.
Proof.
  exists (fun x => if PrimFloat.eqb x (-40)%float then Float64.exp_m40
                   else Float64.exp_m41).
  repeat split; vm_compute; reflexivity.
Qed.

End Rounding.

(** * More of the class [RBM]

    What the methods do at the edges of their domains, what they leave
    alone, and how they compose. *)

(** ** The constructor *)

Lemma fresh_not_allocated (h : gmap loc obj) : h !! fresh (dom h) = None.
Proof. apply not_elem_of_dom, is_fresh. Qed.

Lemma fresh_ne_allocated (h : gmap loc obj) l : is_Some (h !! l) -> l <> fresh (dom h).
Proof.
  intros [o Ho] E. rewrite E, fresh_not_allocated in Ho. discriminate.
Qed.

Lemma initial_weights_margin g nv nh :
  (forall j, (j <= nh)%nat -> get (Glorot.initial_weights g nv nh) 0 j = Fin 0) /\
  (forall i, (i <= nv)%nat -> get (Glorot.initial_weights g nv nh) i 0 = Fin 0).
Proof.
  unfold Glorot.initial_weights. split.
  - intros j Hj. rewrite get_tabulate by lia. unfold Glorot.entry. now destruct j.
  - intros i Hi. rewrite get_tabulate by lia. reflexivity.
Qed.

Lemma init_rbm_at RandomState nv nh w :
  (0 < nh + nv)%nat ->
  exists self wl,
    fst (__init__ RandomState nv nh w) = Ok self /\
    heap w !! wl = None /\
    heap w !! self = None /\
    self <> wl /\
    heap (snd (__init__ RandomState nv nh w)) =
      <[self := Instance {| num_hidden := nh; num_visible := nv;
                            debug_print := false; weights := wl |}]>
        (<[wl := Array (Glorot.initial_weights (RandomState 1234%Z) nv nh)]>
           (heap w)) /\
    np_random (snd (__init__ RandomState nv nh w)) = np_random w /\
    stdout (snd (__init__ RandomState nv nh w)) = stdout w.
Proof.
  intros Hn. rewrite (init_run RandomState nv nh w Hn). cbn [fst snd heap np_random stdout].
  set (wl := fresh (dom (heap w))).
  set (h1 := <[wl := Array _]> (heap w)).
  set (self := fresh (dom h1)).
  assert (Hself : h1 !! self = None) by apply fresh_not_allocated.
  assert (Hne : self <> wl).
  { intros E. rewrite E in Hself. subst h1.
    rewrite lookup_insert_eq in Hself. discriminate. }
  exists self, wl. split; [reflexivity |].
  split; [apply fresh_not_allocated |].
  split; [| auto].
  subst h1. now rewrite lookup_insert_ne in Hself by congruence.
Qed.

(** X1.  For sizes that are natural numbers (negative integers, which the
    constructor does not reject itself, are left out), the constructor raises
    in one case only, when both sizes are 0 (the quotient [6. / 0] is
    Python's): it then changes nothing.  With any other such sizes, one of
    them 0 included, it returns an instance with [debug_print] off whose
    matrix has [num_visible + 1] rows and [num_hidden + 1] columns, zero in
    row 0 and in column 0. *)
Theorem init_raises_only_without_units RandomState (n_visible n_hidden : Z) w :
  (0 <= n_visible)%Z ->
  (0 <= n_hidden)%Z ->
  let nv := Z.to_nat n_visible in
  let nh := Z.to_nat n_hidden in
  let result := __init__ RandomState nv nh w in
  ((n_hidden + n_visible = 0)%Z /\
   result = (Raise ZeroDivisionError, w)) \/
  ((0 < n_hidden + n_visible)%Z /\
   exists self r W,
     fst result = Ok self /\
     rbm_at (snd result) self r W /\
     num_visible r = nv /\ num_hidden r = nh /\ debug_print r = false /\
     (forall j, (j <= nh)%nat -> get W 0 j = Fin 0) /\
     (forall i, (i <= nv)%nat -> get W i 0 = Fin 0)).
Proof.
  intros Hv Hh nv nh result. subst result.
  destruct (Nat.eq_dec (nh + nv) 0)%nat as [E|E].
  - left. split; [lia |].
    assert (nh = 0%nat) as -> by lia. assert (nv = 0%nat) as -> by lia.
    apply init_no_units.
  - right. assert (Hn : (0 < nh + nv)%nat) by lia. split; [lia |].
    destruct (init_rbm_at RandomState nv nh w Hn)
      as (self & wl & Hok & _ & _ & Hne & Hheap & _).
    exists self,
      {| num_hidden := nh; num_visible := nv; debug_print := false;
         weights := wl |},
      (Glorot.initial_weights (RandomState 1234%Z) nv nh).
    split; [exact Hok |]. split.
    + unfold rbm_at. rewrite Hheap. cbn [weights num_visible num_hidden].
      rewrite lookup_insert_eq, lookup_insert_ne, lookup_insert_eq by exact Hne.
      repeat split; try reflexivity.
      * apply well_formed_tabulate.
      * apply nrows_tabulate.
    + repeat split; try reflexivity; apply initial_weights_margin.
Qed.

Lemma init_raises_only_without_units_witness :
  __init__ (fun _ => Example.constant (1 / 2)) 0 0 Example.world0 =
    (Raise ZeroDivisionError, Example.world0) /\
  exists self, fst (__init__ (fun _ => Example.constant (1 / 2)) 6 0
                      Example.world0) = Ok self.
Proof.
  split.
  - destruct (init_raises_only_without_units
                (fun _ => Example.constant (1 / 2)) 0 0 Example.world0)
      as [[_ H] | [H _]]; [lia | lia | exact H | lia].
  - destruct (init_raises_only_without_units
                (fun _ => Example.constant (1 / 2)) 6 0 Example.world0)
      as [[H _] | [_ (self & _ & _ & H & _)]]; [lia | lia | lia |].
    exists self. exact H.
Defined.



(** ** Training *)



Lemma generator_after_epochs nv nh d lr n : forall W g k,
  snd (CD1.epochs n nv nh d W g lr) k = g (n * (nrows d * S nh) + k)%nat.
Proof.
  induction n as [|n IH]; intros W g k; [reflexivity |].
  cbn [CD1.epochs]. rewrite IH.
  unfold CD1.generator_after, CD1.num_examples, advance. f_equal. lia.
Qed.




(** X4.  [train] takes from [np.random] one draw for each hidden cell (the bias
    cell too) of each example in each epoch, and nothing else: afterwards the
    generator is the one before, moved on by
    [max_epochs * num_examples * (num_hidden + 1)] draws. *)
Theorem train_draws self data r W d max_epochs lr w :
  rbm_at w self r W ->
  array_at w data d ->
  ncols d = num_visible r ->
  fst (train self data max_epochs lr w) = Ok tt /\
  forall k,
    np_random (snd (train self data max_epochs lr w)) k =
    np_random w
      (Z.to_nat max_epochs * (nrows d * (num_hidden r + 1)) + k)%nat.
Proof.
  intros HW Hd Hdc. rewrite (train_run _ _ _ _ _ _ _ _ HW Hd Hdc).
  split; [reflexivity |]. intros k. cbn [snd np_random].
  rewrite generator_after_epochs. now rewrite Nat.add_1_r.
Qed.

Lemma train_draws_witness :
  np_random (snd (train Example.self Example.data_ref 5 (Fin (1 / 10))
                    Example.world0)) 0%nat =
  np_random Example.world0 (5 * (2 * (1 + 1)) + 0)%nat.
Proof.
  destruct (train_draws Example.self Example.data_ref Example.rbm Example.W0
              Example.data 5 (Fin (1 / 10)) Example.world0
              example_rbm_at example_data_at eq_refl) as [_ H].
  exact (H 0%nat).
Defined.

Lemma updated_weights_no_examples nv nh d W g lr :
  nrows d = 0%nat ->
  CD1.updated_weights nv nh d W g lr = tabulate (S nv) (S nh) (fun _ _ => NaN).
Proof.
  intros HN. unfold CD1.updated_weights. apply tabulate_ext.
  intros i j _ _. now apply updated_no_examples.
Qed.

Lemma epochs_no_examples nv nh d lr n :
  nrows d = 0%nat ->
  forall W g,
    fst (CD1.epochs (S n) nv nh d W g lr) =
    tabulate (S nv) (S nh) (fun _ _ => NaN).
Proof.
  intros HN. induction n as [|n IH]; intros W g.
  - cbn [CD1.epochs fst]. now apply updated_weights_no_examples.
  - change (CD1.epochs (S (S n)) nv nh d W g lr)
      with (CD1.epochs (S n) nv nh d (CD1.updated_weights nv nh d W g lr)
              (CD1.generator_after nh d g) lr).
    apply IH.
Qed.

(** X5.  On a data set of the right width that holds no example, [train] with at
    least one epoch does not raise: it overwrites every weight with NaN,
    whatever the weights and the learning rate were (the mean over the
    examples is [0 / 0]). *)
Theorem train_without_examples self data r W d max_epochs lr w :
  rbm_at w self r W ->
  array_at w data d ->
  ncols d = num_visible r ->
  nrows d = 0%nat ->
  (0 < max_epochs)%Z ->
  exists w',
    train self data max_epochs lr w = (Ok tt, w') /\
    heap w' !! weights r =
      Some (Array (tabulate (S (num_visible r)) (S (num_hidden r))
                     (fun _ _ => NaN))).
Proof.
  intros HW Hd Hdc HN Hpos.
  rewrite (train_run _ _ _ _ _ _ _ _ HW Hd Hdc).
  eexists. split; [reflexivity |]. cbn [heap].
  destruct (Z.to_nat max_epochs) as [|n] eqn:En; [lia |].
  rewrite epochs_no_examples by exact HN. apply lookup_insert_eq.
Qed.

Lemma example_no_data_at :
  array_at Example.world0 Example.no_data_ref Example.no_data.
Proof. split; [reflexivity | constructor]. Defined.

Lemma train_without_examples_witness :
  exists w',
    train Example.self Example.no_data_ref 3 (Fin (1 / 10)) Example.world0 =
      (Ok tt, w') /\
    heap w' !! Example.weights_ref =
      Some (Array (tabulate 2 2 (fun _ _ => NaN))).
Proof.
  apply (train_without_examples Example.self Example.no_data_ref Example.rbm
           Example.W0 Example.no_data 3 (Fin (1 / 10)) Example.world0
           example_rbm_at example_no_data_at eq_refl eq_refl).
  lia.
Defined.

Lemma all_finite_tabulate r c g :
  (forall i j, (i < r)%nat -> (j < c)%nat -> is_finite (g i j)) ->
  all_finite (tabulate r c g).
Proof.
  intros H. unfold all_finite, tabulate, vtabulate; cbn [rows].
  apply List.Forall_forall. intros row Hrow.
  apply in_map_iff in Hrow. destruct Hrow as (i & <- & Hi).
  apply in_seq in Hi.
  apply List.Forall_forall. intros x Hx.
  apply in_map_iff in Hx. destruct Hx as (j & <- & Hj).
  apply in_seq in Hj. apply H; lia.
Qed.

Lemma is_finite_fdiv_nat x n :
  is_finite x -> (0 < n)%nat -> is_finite (fdiv x (of_nat n)).
Proof.
  intros Hx Hn. apply is_finite_Fin in Hx. destruct Hx as [a ->].
  unfold of_nat. cbn [fdiv]. now rewrite Rsign_pos by (apply lt_0_INR; lia).
Qed.

Lemma updated_weights_finite nv nh d W g lr :
  all_finite d -> all_finite W -> is_finite lr -> (0 < nrows d)%nat ->
  all_finite (CD1.updated_weights nv nh d W g lr).
Proof.
  intros Hd HW Hlr HN. apply all_finite_tabulate. intros i j _ _.
  unfold CD1.updated. apply is_finite_fadd; [now apply all_finite_get |].
  apply is_finite_fmul; [exact Hlr |].
  apply is_finite_fdiv_nat; [| exact HN].
  now apply is_finite_associations.
Qed.

Lemma epochs_finite nv nh d lr n :
  all_finite d -> is_finite lr -> (0 < nrows d)%nat ->
  forall W g, all_finite W ->
    all_finite (fst (CD1.epochs n nv nh d W g lr)).
Proof.
  intros Hd Hlr HN. induction n as [|n IH]; intros W g HW; [exact HW |].
  cbn [CD1.epochs]. apply IH. now apply updated_weights_finite.
Qed.

(** X6.  Finite numbers stay finite: when the data set has at least one example and
    the data, the weights and the learning rate are finite, no weight is NaN or
    infinite after [train], whatever the number of epochs and the draws.
    (Numbers are exact here: overflow is not in the model.) *)
Theorem train_keeps_weights_finite self data r W d max_epochs lr w :
  rbm_at w self r W ->
  array_at w data d ->
  ncols d = num_visible r ->
  (0 < nrows d)%nat ->
  all_finite d -> all_finite W -> is_finite lr ->
  exists w' W',
    train self data max_epochs lr w = (Ok tt, w') /\
    heap w' !! weights r = Some (Array W') /\
    all_finite W'.
Proof.
  intros HW Hd Hdc HN Hfd HfW Hlr.
  rewrite (train_run _ _ _ _ _ _ _ _ HW Hd Hdc).
  eexists. eexists. split; [reflexivity |]. cbn [heap].
  split; [apply lookup_insert_eq |]. now apply epochs_finite.
Qed.

Lemma train_keeps_weights_finite_witness :
  exists w' W',
    train Example.self Example.data_ref 1000 (Fin (1 / 10)) Example.world0 =
      (Ok tt, w') /\
    heap w' !! Example.weights_ref = Some (Array W') /\
    all_finite W'.
Proof.
  apply (train_keeps_weights_finite Example.self Example.data_ref Example.rbm
           Example.W0 Example.data 1000 (Fin (1 / 10)) Example.world0
           example_rbm_at example_data_at eq_refl).
  - cbn. lia.
  - exact example_data_finite.
  - exact example_W0_finite.
  - exact I.
Defined.

(** *** The weight between the two bias units *)

Lemma fsum_value n f :
  (forall k, (k < n)%nat -> is_finite (f k)) ->
  fsum n f = Fin (rsum n (fun k => value (f k))).
Proof.
  intros H. unfold fsum, rsum.
  assert (G : forall l a, (forall k, In k l -> is_finite (f k)) ->
            fold_left (fun acc k => fadd acc (f k)) l (Fin a) =
            Fin (fold_left (fun acc k => acc + value (f k)) l a)).
  { induction l as [|x l IH]; intros a Hl; cbn [fold_left]; [reflexivity |].
    destruct (is_finite_Fin (f x)) as [b Hb]; [apply Hl; now left |].
    rewrite Hb. cbn [fadd value]. apply IH. intros k Hk. apply Hl. now right. }
  apply G. intros k Hk. apply in_seq in Hk. apply H. lia.
Qed.

Lemma rsum_S n a : rsum (S n) a = rsum n a + a n.
Proof.
  unfold rsum. rewrite seq_S, fold_left_app. reflexivity.
Qed.

Lemma rsum_bounds lo hi n a :
  (forall k, (k <= n)%nat -> lo < a k < hi) ->
  INR (S n) * lo < rsum (S n) a < INR (S n) * hi.
Proof.
  induction n as [|n IH]; intros H.
  - rewrite rsum_S. unfold rsum. cbn [seq fold_left INR].
    pose proof (H 0%nat ltac:(lia)). lra.
  - rewrite rsum_S. rewrite (S_INR (S n)).
    pose proof (H (S n) ltac:(lia)).
    assert (INR (S n) * lo < rsum (S n) a < INR (S n) * hi)
      by (apply IH; intros k Hk; apply H; lia).
    lra.
Qed.

Section BiasWeight.

Variables (nv nh : nat) (d W : ndarray) (g : generator).
Hypothesis Hd : all_finite d.
Hypothesis HW : all_finite W.

Lemma pos_association_bias k :
  fmul (CD1.augmented d k 0) (CD1.pos_hidden_probs nv d W k 0) = Fin 1.
Proof. cbn. f_equal. lra. Qed.

Lemma neg_association_bias k :
  exists t,
    fmul (CD1.neg_visible_probs nv nh d W g k 0)
         (CD1.neg_hidden_probs nv nh d W g k 0) = Fin t /\ 0 < t < 1.
Proof.
  unfold CD1.neg_hidden_probs.
  destruct (is_finite_Fin (fsum (S nv) (fun i =>
              fmul (CD1.neg_visible_probs nv nh d W g k i) (get W i 0))))
    as [s Hs].
  { apply is_finite_fsum. intros i _. apply is_finite_fmul.
    - now apply is_finite_neg_visible_probs.
    - now apply all_finite_get. }
  rewrite Hs, logistic1_Fin. cbn [CD1.neg_visible_probs Nat.eqb fmul].
  eexists. split; [reflexivity |].
  pose proof (logistic_value_bounds s). lra.
Qed.

(** One epoch at a positive learning rate [rate] adds to [weights[0,0]] more
    than 0 and less than [rate]. *)
Lemma updated_bias_weight rate a :
  (0 < nrows d)%nat ->
  0 < rate ->
  get W 0 0 = Fin a ->
  exists b,
    CD1.updated nv nh d W g (Fin rate) 0 0 = Fin b /\ a < b < a + rate.
Proof.
  intros HN Hrate Ha. unfold CD1.updated, CD1.pos_associations,
    CD1.neg_associations, CD1.num_examples.
  destruct (nrows d) as [|N] eqn:EN; [lia |].
  rewrite (fsum_ext _ _ (fun _ => Fin 1))
    by (intros k _; apply pos_association_bias).
  rewrite (fsum_value (S N) (fun _ => Fin 1)) by (intros; exact I).
  rewrite (fsum_value (S N) (fun k =>
             fmul (CD1.neg_visible_probs nv nh d W g k 0)
                  (CD1.neg_hidden_probs nv nh d W g k 0))).
  2:{ intros k _. destruct (neg_association_bias k) as (t & -> & _). exact I. }
  assert (Hone : INR (S N) * (1 / 2) < rsum (S N) (fun _ => value (Fin 1))
                 < INR (S N) * 2 /\
                 rsum (S N) (fun _ => value (Fin 1)) = INR (S N)).
  { split; [apply rsum_bounds; intros; cbn; lra |].
    clear. induction N as [|N IH].
    - unfold rsum. cbn. lra.
    - rewrite rsum_S, IH, (S_INR (S N)). cbn [value]. lra. }
  destruct Hone as [_ Hone]. rewrite Hone. clear Hone.
  assert (Hneg : INR (S N) * 0 <
                 rsum (S N) (fun k =>
                   value (fmul (CD1.neg_visible_probs nv nh d W g k 0)
                               (CD1.neg_hidden_probs nv nh d W g k 0)))
                 < INR (S N) * 1).
  { apply rsum_bounds. intros k _.
    destruct (neg_association_bias k) as (t & -> & Ht). exact Ht. }
  set (S0 := rsum (S N) _) in *.
  assert (HNpos : 0 < INR (S N)) by (apply lt_0_INR; lia).
  rewrite Ha. unfold of_nat. cbn [fsub fneg fadd fdiv].
  rewrite Rsign_pos by exact HNpos. cbn [fmul fadd].
  eexists. split; [reflexivity |].
  assert (Hq : 0 < (INR (S N) + - S0) / INR (S N) < 1).
  { split.
    - apply Rdiv_lt_0_compat; lra.
    - apply (Rmult_lt_reg_r (INR (S N))); [exact HNpos |].
      unfold Rdiv. rewrite Rmult_assoc, Rinv_l by lra. lra. }
  nra.
Qed.

End BiasWeight.

Lemma epochs_bias_weight nv nh d rate n :
  all_finite d -> (0 < nrows d)%nat -> 0 < rate ->
  forall W g a,
    all_finite W ->
    get W 0 0 = Fin a ->
    exists b,
      get (fst (CD1.epochs (S n) nv nh d W g (Fin rate))) 0 0 = Fin b /\
      a < b < a + INR (S n) * rate.
Proof.
  intros Hd HN Hrate. induction n as [|n IH]; intros W g a HW Ha.
  - cbn [CD1.epochs fst]. unfold CD1.updated_weights.
    rewrite get_tabulate by lia.
    destruct (updated_bias_weight nv nh d W g HW rate a HN Hrate Ha)
      as (b & Hb & Hab).
    exists b. split; [exact Hb |]. cbn [INR]. lra.
  - change (CD1.epochs (S (S n)) nv nh d W g (Fin rate))
      with (CD1.epochs (S n) nv nh d (CD1.updated_weights nv nh d W g (Fin rate))
              (CD1.generator_after nh d g) (Fin rate)).
    destruct (updated_bias_weight nv nh d W g HW rate a HN Hrate Ha)
      as (a1 & Ha1 & Haa1).
    destruct (IH (CD1.updated_weights nv nh d W g (Fin rate))
                 (CD1.generator_after nh d g) a1) as (b & Hb & Hab).
    + now apply updated_weights_finite.
    + unfold CD1.updated_weights. now rewrite get_tabulate by lia.
    + exists b. split; [exact Hb |]. rewrite (S_INR (S n)). lra.
Qed.

(** X7.  In exact arithmetic, [train] does not keep [weights[0,0]] at 0.  On
    finite data with at least one example and at a positive learning rate,
    every epoch adds to the weight between the two bias units more than 0 and
    less than the learning rate: after [n >= 1] epochs it has grown by more
    than 0 and less than [n * learning_rate], whatever the draws.  (Numbers
    are exact here.  The growth is strict because the exact logistic function
    stays below 1; rounded to binary64 it is exactly 1.0 at large activations
    (at 40, see [Rounding]), and the weight can then stay where it is.) *)
Theorem train_grows_bias_weight self data r W d max_epochs rate a w :
  rbm_at w self r W ->
  array_at w data d ->
  ncols d = num_visible r ->
  (0 < nrows d)%nat ->
  all_finite d -> all_finite W ->
  0 < rate ->
  (0 < max_epochs)%Z ->
  get W 0 0 = Fin a ->
  exists w' W' b,
    train self data max_epochs (Fin rate) w = (Ok tt, w') /\
    heap w' !! weights r = Some (Array W') /\
    get W' 0 0 = Fin b /\
    a < b < a + IZR max_epochs * rate.
Proof.
  intros HW Hd Hdc HN Hfd HfW Hrate Hpos Ha.
  rewrite (train_run _ _ _ _ _ _ _ _ HW Hd Hdc).
  destruct (Z.to_nat max_epochs) as [|n] eqn:En; [lia |].
  destruct (epochs_bias_weight (num_visible r) (num_hidden r) d rate n
              Hfd HN Hrate W (np_random w) a HfW Ha) as (b & Hb & Hab).
  eexists. eexists. exists b. split; [reflexivity |]. cbn [heap].
  split; [apply lookup_insert_eq |]. split; [exact Hb |].
  replace (IZR max_epochs) with (INR (S n)); [exact Hab |].
  rewrite <- En, INR_IZR_INZ, Z2Nat.id by lia. reflexivity.
Qed.

Lemma train_grows_bias_weight_witness :
  exists w' W' b,
    train Example.self Example.data_ref 5 (Fin (1 / 10)) Example.world0 =
      (Ok tt, w') /\
    heap w' !! Example.weights_ref = Some (Array W') /\
    get W' 0 0 = Fin b /\
    0 < b < 0 + 5 * (1 / 10).
Proof.
  apply (train_grows_bias_weight Example.self Example.data_ref Example.rbm
           Example.W0 Example.data 5 (1 / 10) 0 Example.world0
           example_rbm_at example_data_at eq_refl).
  - cbn. lia.
  - exact example_data_finite.
  - exact example_W0_finite.
  - lra.
  - lia.
  - reflexivity.
Defined.

(** ** Sampling one layer from the other *)

(** X8.  [run_visible] and [run_hidden] write nothing: the heap (the weights, the
    input array) and the output are as before.  They do move [np.random] on,
    by one draw per cell of the sampled array, the cells of the bias column
    that is then dropped included. *)
Theorem sampling_only_draws self data r W d w :
  rbm_at w self r W ->
  array_at w data d ->
  (ncols d = num_visible r ->
     let result := run_visible self data w in
     heap (snd result) = heap w /\ stdout (snd result) = stdout w /\
     forall k, np_random (snd result) k =
               np_random w (nrows d * (num_hidden r + 1) + k)%nat) /\
  (ncols d = num_hidden r ->
     let result := run_hidden self data w in
     heap (snd result) = heap w /\ stdout (snd result) = stdout w /\
     forall k, np_random (snd result) k =
               np_random w (nrows d * (num_visible r + 1) + k)%nat).
Proof.
  intros HW Hd. pose proof (rbm_at_tabulated _ _ _ _ HW) as Hw.
  destruct HW as (Hs & _). split; intros Hdc result; subst result.
  - rewrite (run_visible_tabulated _ _ _ _ _ _ _ _ Hs Hw eq_refl eq_refl Hd Hdc).
    cbn [snd heap stdout np_random]. repeat split.
    intros k. unfold advance. now rewrite Nat.add_1_r.
  - rewrite (run_hidden_tabulated _ _ _ _ _ _ _ _ Hs Hw eq_refl eq_refl Hd Hdc).
    cbn [snd heap stdout np_random]. repeat split.
    intros k. unfold advance. now rewrite Nat.add_1_r.
Qed.

Lemma sampling_only_draws_witness :
  heap (snd (run_visible Example.self Example.data_ref Example.world0)) =
    heap Example.world0 /\
  heap (snd (run_hidden Example.self Example.data_ref Example.world0)) =
    heap Example.world0.
Proof.
  destruct (sampling_only_draws Example.self Example.data_ref Example.rbm
              Example.W0 Example.data Example.world0
              example_rbm_at example_data_at) as [Hv Hh].
  split.
  - exact (proj1 (Hv eq_refl)).
  - exact (proj1 (Hh eq_refl)).
Defined.

Lemma rbm_at_alloc w self r W o :
  rbm_at w self r W ->
  rbm_at {| heap := <[fresh (dom (heap w)) := o]> (heap w);
            np_random := np_random w; stdout := stdout w |} self r W.
Proof.
  intros (Hs & Hw & Hrest). unfold rbm_at. cbn [heap].
  rewrite !lookup_insert_ne by (apply not_eq_sym, fresh_ne_allocated; eauto).
  auto.
Qed.

Lemma run_visible_result self data r W d w :
  rbm_at w self r W ->
  array_at w data d ->
  ncols d = num_visible r ->
  exists out w',
    run_visible self data w = (Ok out, w') /\
    shape out = (nrows d, num_hidden r) /\ well_formed out /\ all_binary out /\
    heap w' = heap w.
Proof.
  intros HW Hd Hdc. pose proof (rbm_at_tabulated _ _ _ _ HW) as Hw.
  destruct HW as (Hs & _).
  rewrite (run_visible_tabulated _ _ _ _ _ _ _ _ Hs Hw eq_refl eq_refl Hd Hdc).
  eexists. eexists. split; [reflexivity |].
  split; [unfold shape; now rewrite nrows_tabulate |].
  split; [apply well_formed_tabulate |].
  split; [| reflexivity].
  apply all_binary_tabulate. intros. apply is_binary_of_bool.
Qed.

Lemma run_hidden_result self data r W d w :
  rbm_at w self r W ->
  array_at w data d ->
  ncols d = num_hidden r ->
  exists out w',
    run_hidden self data w = (Ok out, w') /\
    shape out = (nrows d, num_visible r) /\ well_formed out /\ all_binary out /\
    heap w' = heap w.
Proof.
  intros HW Hd Hdc. pose proof (rbm_at_tabulated _ _ _ _ HW) as Hw.
  destruct HW as (Hs & _).
  rewrite (run_hidden_tabulated _ _ _ _ _ _ _ _ Hs Hw eq_refl eq_refl Hd Hdc).
  eexists. eexists. split; [reflexivity |].
  split; [unfold shape; now rewrite nrows_tabulate |].
  split; [apply well_formed_tabulate |].
  split; [| reflexivity].
  apply all_binary_tabulate. intros. apply is_binary_of_bool.
Qed.

(** X9.  The two samplers compose: the hidden sample of a visible array, passed on
    to [run_hidden], gives a binary array of the shape of the visible array;
    and the other way round. *)
Theorem samplers_round_trip self data r W d w :
  rbm_at w self r W ->
  array_at w data d ->
  (ncols d = num_visible r ->
     exists out w',
       (h <- run_visible self data ;; l <- alloc (Array h) ;; run_hidden self l) w
         = (Ok out, w') /\
       shape out = shape d /\ well_formed out /\ all_binary out) /\
  (ncols d = num_hidden r ->
     exists out w',
       (v <- run_hidden self data ;; l <- alloc (Array v) ;; run_visible self l) w
         = (Ok out, w') /\
       shape out = shape d /\ well_formed out /\ all_binary out).
Proof.
  intros HW Hd. pose proof (rbm_at_tabulated _ _ _ _ HW) as Hw.
  pose proof HW as (Hs & _). split; intros Hdc.
  - unfold bind at 1.
    rewrite (run_visible_tabulated _ _ _ _ _ _ _ _ Hs Hw eq_refl eq_refl Hd Hdc).
    unfold bind at 1, alloc. cbn [heap np_random stdout].
    set (h := tabulate _ _ _).
    match goal with
    | |- context [run_hidden self _ ?w2] =>
        assert (HW2 : rbm_at w2 self r W)
          by (eapply rbm_at_same_heap;
              [| exact (rbm_at_alloc w self r W (Array h) HW)]; reflexivity)
    end.
    destruct (run_hidden_result self (fresh (dom (heap w))) r W h _ HW2)
      as (out & w' & Hrun & Hshape & Hwf & Hbin & _).
    + split; [cbn [heap]; apply lookup_insert_eq | apply well_formed_tabulate].
    + reflexivity.
    + exists out, w'. split; [exact Hrun |].
      split; [| auto]. rewrite Hshape. unfold shape, h.
      now rewrite nrows_tabulate, Hdc.
  - unfold bind at 1.
    rewrite (run_hidden_tabulated _ _ _ _ _ _ _ _ Hs Hw eq_refl eq_refl Hd Hdc).
    unfold bind at 1, alloc. cbn [heap np_random stdout].
    set (h := tabulate _ _ _).
    match goal with
    | |- context [run_visible self _ ?w2] =>
        assert (HW2 : rbm_at w2 self r W)
          by (eapply rbm_at_same_heap;
              [| exact (rbm_at_alloc w self r W (Array h) HW)]; reflexivity)
    end.
    destruct (run_visible_result self (fresh (dom (heap w))) r W h _ HW2)
      as (out & w' & Hrun & Hshape & Hwf & Hbin & _).
    + split; [cbn [heap]; apply lookup_insert_eq | apply well_formed_tabulate].
    + reflexivity.
    + exists out, w'. split; [exact Hrun |].
      split; [| auto]. rewrite Hshape. unfold shape, h.
      now rewrite nrows_tabulate, Hdc.
Qed.

Lemma samplers_round_trip_witness :
  exists out w',
    (h <- run_visible Example.self Example.data_ref ;;
     l <- alloc (Array h) ;; run_hidden Example.self l) Example.world0
      = (Ok out, w') /\
    shape out = (2%nat, 1%nat) /\ all_binary out.
Proof.
  destruct (samplers_round_trip Example.self Example.data_ref Example.rbm
              Example.W0 Example.data Example.world0
              example_rbm_at example_data_at) as [Hv _].
  destruct (Hv eq_refl) as (out & w' & Hrun & Hshape & _ & Hbin).
  exists out, w'. auto.
Defined.

(** ** Construct, train, query *)



(** ** Daydreaming as one chain *)

Lemma for_range_daydream_rows self r W count : forall start samples w,
  rbm_at w self r W ->
  well_formed samples ->
  ncols samples = S (num_visible r) ->
  (1 <= start)%nat -> (start + count <= nrows samples)%nat ->
  for_range start count (daydream_step self) samples w =
  (Ok {| ncols := ncols samples;
         rows := dream_rows (num_visible r) (num_hidden r) W count start
                   (np_random w) (rows samples) |},
   {| heap := heap w;
      np_random := dream_gen (num_visible r) (num_hidden r) count (np_random w);
      stdout := stdout w |}).
Proof.
  induction count as [|count IH]; intros start samples w HW Hwf Hc H1 Hle.
  - cbn [for_range dream_rows dream_gen]. unfold ret.
    now destruct samples, w.
  - cbn [for_range dream_rows dream_gen]. unfold bind at 1.
    rewrite (daydream_step_run self r W start samples w HW Hwf Hc H1) by lia.
    rewrite IH.
    + reflexivity.
    + eapply rbm_at_same_heap; [| exact HW]. reflexivity.
    + unfold well_formed in *. cbn [rows ncols].
      apply Forall_insert; [exact Hwf |].
      unfold Gibbs.next_row. now rewrite length_vtabulate, Hc.
    + exact Hc.
    + lia.
    + unfold nrows in *. cbn [rows]. rewrite length_insert. lia.
Qed.

Lemma dream_gen_at nv nh count : forall g k,
  dream_gen nv nh count g k = g (count * (S nh + S nv) + k)%nat.
Proof.
  induction count as [|count IH]; intros g k; [reflexivity |].
  cbn [dream_gen]. rewrite IH. unfold advance. f_equal. lia.
Qed.

(** [samples] when the loop of [daydream] is entered. *)
Lemma daydream_run self r W n w :
  rbm_at w self r W ->
  (0 < n)%nat ->
  daydream self n w =
  (Ok (drop_col0
         {| ncols := S (num_visible r);
            rows := dream_rows (num_visible r) (num_hidden r) W (n - 1) 1
                      (advance (np_random w) (num_visible r))
                      (<[0%nat := [Fin 1] ++ draw1 (np_random w) (num_visible r)]>
                         (rows (np_ones n (S (num_visible r))))) |}),
   {| heap := heap w;
      np_random := dream_gen (num_visible r) (num_hidden r) (n - 1)
                     (advance (np_random w) (num_visible r));
      stdout := stdout w |}).
Proof.
  intros HW Hn. pose proof HW as (Hs & _). unfold daydream, daydream_loop.
  unfold bind at 1.
  rewrite (bind_attr _ _ _ _ _ Hs), (bind_attr _ _ _ _ _ Hs), Nat.add_1_r.
  rewrite bind_rand1, bind_lift.
  unfold set_row_tail. unfold np_ones at 1 2. rewrite nrows_tabulate, ncols_tabulate.
  destruct (Nat.ltb_spec 0 n) as [_|?]; [| lia].
  unfold broadcast_to, draw1 at 1. rewrite length_vtabulate, Nat.eqb_refl.
  cbn [obind Nat.pred].
  replace (nth 0 (rows (np_ones n (S (num_visible r)))) [])
    with (vtabulate (S (num_visible r)) (fun _ => Fin 1))
    by (symmetry; apply (row_tabulate n _ (fun _ _ => Fin 1) 0 Hn)).
  change (firstn 1 (vtabulate (S (num_visible r)) (fun _ => Fin 1)))
    with [Fin 1].
  destruct (dream_inv_init (num_visible r) n (np_random w) Hn)
    as (Hc & Hr & Hwf & _).
  rewrite (for_range_daydream_rows self r W).
  - reflexivity.
  - eapply rbm_at_same_heap; [| exact HW]. reflexivity.
  - exact Hwf.
  - exact Hc.
  - lia.
  - unfold nrows in *. cbn [rows] in *. rewrite Hr. lia.
Qed.

(** X11.  [daydream(0)] raises [IndexError]: there is no row 0 to store the first
    sample in.  The draws for that sample were taken before, so [np.random] has
    moved on by [num_visible] draws; nothing else has changed. *)
Theorem daydream_of_no_sample self r W w :
  rbm_at w self r W ->
  daydream self 0 w =
  (Raise IndexError,
   {| heap := heap w;
      np_random := advance (np_random w) (num_visible r);
      stdout := stdout w |}).
Proof.
  intros (Hs & _). unfold daydream, daydream_loop. unfold bind at 1.
  rewrite (bind_attr _ _ _ _ _ Hs), (bind_attr _ _ _ _ _ Hs).
  rewrite bind_rand1, bind_lift. reflexivity.
Qed.

Lemma daydream_of_no_sample_witness :
  fst (daydream Example.self 0 Example.world0) = Raise IndexError.
Proof.
  now rewrite (daydream_of_no_sample Example.self Example.rbm Example.W0
                 Example.world0 example_rbm_at).
Defined.

(** X12.  [daydream] writes nothing to the heap or the output, and takes from
    [np.random] the [num_visible] draws of the first sample and then, for each
    further sample, one draw per hidden and per visible cell, bias cells
    included. *)
Theorem daydream_only_draws self r W n w :
  rbm_at w self r W ->
  (0 < n)%nat ->
  let result := daydream self n w in
  heap (snd result) = heap w /\ stdout (snd result) = stdout w /\
  forall k,
    np_random (snd result) k =
    np_random w
      (num_visible r +
       ((n - 1) * ((num_hidden r + 1) + (num_visible r + 1)) + k))%nat.
Proof.
  intros HW Hn result. subst result. rewrite (daydream_run self r W n w HW Hn).
  cbn [snd heap stdout np_random]. repeat split.
  intros k. rewrite dream_gen_at. unfold advance. f_equal. lia.
Qed.

Lemma daydream_only_draws_witness :
  heap (snd (daydream Example.self 10 Example.world0)) = heap Example.world0.
Proof.
  destruct (daydream_only_draws Example.self Example.rbm Example.W0 10
              Example.world0 example_rbm_at) as (H & _); [lia | exact H].
Defined.

Lemma nth_take {A} (l : list A) n i d :
  (i < n)%nat -> nth i (take n l) d = nth i l d.
Proof. intros Hi. now rewrite !nth_lookup, lookup_take_lt by assumption. Qed.

Lemma dream_rows_take nv nh W n count : forall start g rows,
  (1 <= start)%nat -> (start + count <= n)%nat ->
  take n (dream_rows nv nh W count start g rows) =
  dream_rows nv nh W count start g (take n rows).
Proof.
  induction count as [|count IH]; intros start g rows H1 Hle; [reflexivity |].
  cbn [dream_rows]. rewrite IH by lia.
  rewrite take_insert_lt by lia. now rewrite nth_take by lia.
Qed.

Lemma dream_rows_snoc nv nh W count : forall start g rows,
  dream_rows nv nh W (S count) start g rows =
  <[(start + count)%nat :=
      Gibbs.next_row nv nh W (dream_gen nv nh count g)
        (nth (start + count - 1) (dream_rows nv nh W count start g rows) [])]>
    (dream_rows nv nh W count start g rows).
Proof.
  induction count as [|count IH]; intros start g rows.
  - cbn [dream_rows dream_gen]. now rewrite Nat.add_0_r.
  - change (dream_rows nv nh W (S (S count)) start g rows)
      with (dream_rows nv nh W (S count) (S start)
              (advance (advance g (S nh)) (S nv))
              (<[start := Gibbs.next_row nv nh W g (nth (start - 1) rows [])]> rows)).
    rewrite IH. cbn [dream_rows dream_gen].
    now replace (S start + count)%nat with (start + S count)%nat by lia.
Qed.

Lemma rows_np_ones_take n c : take n (rows (np_ones (S n) c)) = rows (np_ones n c).
Proof.
  unfold np_ones, tabulate; cbn [rows].
  rewrite firstn_map, take_seq. now rewrite Nat.min_l by lia.
Qed.

(** X13.  Asking [daydream] for one more sample extends the same chain: from the
    same state of the machine and of [np.random], the first [n] rows of
    [daydream(n + 1)] are the rows of [daydream(n)]. *)
Theorem daydream_extends self r W n w :
  rbm_at w self r W ->
  (0 < n)%nat ->
  exists shorter longer w1 w2,
    daydream self n w = (Ok shorter, w1) /\
    daydream self (S n) w = (Ok longer, w2) /\
    ncols longer = ncols shorter /\
    take n (rows longer) = rows shorter.
Proof.
  intros HW Hn.
  rewrite (daydream_run self r W n w HW Hn).
  rewrite (daydream_run self r W (S n) w HW) by lia.
  do 4 eexists. split; [reflexivity |]. split; [reflexivity |].
  split; [reflexivity |].
  unfold drop_col0; cbn [rows].
  rewrite firstn_map. f_equal.
  replace (S n - 1)%nat with (S (n - 1)) by lia.
  rewrite dream_rows_snoc.
  replace (1 + (n - 1))%nat with n by lia.
  rewrite take_insert_ge by lia.
  rewrite dream_rows_take by lia.
  rewrite take_insert_lt by lia. now rewrite rows_np_ones_take.
Qed.

Lemma daydream_extends_witness :
  exists shorter longer w1 w2,
    daydream Example.self 9 Example.world0 = (Ok shorter, w1) /\
    daydream Example.self 10 Example.world0 = (Ok longer, w2) /\
    take 9 (rows longer) = rows shorter.
Proof.
  destruct (daydream_extends Example.self Example.rbm Example.W0 9
              Example.world0 example_rbm_at)
    as (a & b & w1 & w2 & Ha & Hb & _ & Htake); [lia |].
  exists a, b, w1, w2. auto.
Defined.

(** * The cells "From scratch" *)

Lemma Energy_tabulate n p q m V A H :
  Energy (tabulate n p V) (tabulate m q H) (tabulate p q A) =
  Ok (tabulate n m (fun k l =>
        fsum q (fun j => fmul (fsum p (fun i => fmul (V k i) (A i j))) (H l j)))).
Proof.
  unfold Energy. rewrite np_dot_tabulate. cbn [obind].
  now rewrite np_T_tabulate, np_dot_tabulate.
Qed.

Lemma loop_body_tabulated nv nh d W lr ep tr w :
  Scratch.loop_body (tabulate (nrows d) (S nv) (CD1.augmented d)) (nrows d)
    nv nh lr ep (tabulate (S nv) (S nh) (get W), tr) w =
  (Ok (CD1.updated_weights nv nh d W (np_random w) lr,
       {| Scratch.Ens := Scratch.Ens tr ++ [Scratch.log_activations nv nh d W];
          Scratch.Ers := Scratch.Ers tr ++ [CD1.error nv nh d W (np_random w)];
          Scratch.E11s :=
            Scratch.E11s tr ++
            [Scratch.energy nv nh d W (np_random w)
               (CD1.updated nv nh d W (np_random w) lr)];
          Scratch.E01s :=
            Scratch.E01s tr ++
            [Scratch.energy nv nh d W (np_random w) (get W)] |}),
   {| heap := heap w;
      np_random := Scratch.after_third nv nh d (np_random w);
      stdout := stdout w |}).
Proof.
  unfold Scratch.loop_body. cbn [fst snd].
  rewrite bind_lift, np_dot_tabulate.
  unfold logistic. rewrite nd_map_tabulate.
  rewrite bind_lift, set_col0_tabulate.
  rewrite !Nat.add_1_r.
  rewrite bind_rand. unfold draw2.
  rewrite bind_lift. unfold np_greater. rewrite broadcast2_tabulate.
  rewrite bind_lift, np_T_tabulate, np_dot_tabulate.
  rewrite bind_lift, np_T_tabulate, np_dot_tabulate.
  rewrite nd_map_tabulate, bind_lift, set_col0_tabulate.
  rewrite bind_rand. unfold draw2.
  rewrite bind_lift, broadcast2_tabulate.
  rewrite bind_lift, np_dot_tabulate, nd_map_tabulate.
  rewrite bind_rand. unfold draw2.
  rewrite bind_lift, broadcast2_tabulate.
  rewrite bind_lift, np_T_tabulate, np_dot_tabulate.
  rewrite bind_lift, Energy_tabulate.
  rewrite bind_lift. unfold np_subtract. rewrite broadcast2_tabulate.
  rewrite !nd_map_tabulate, bind_lift, np_iadd_tabulate.
  rewrite bind_lift, Energy_tabulate.
  rewrite bind_lift, broadcast2_tabulate, nd_map_tabulate.
  reflexivity.
Qed.

(** One pass of the script on the arrays of the cell. *)
Lemma loop_body_run nh d W lr ep tr w :
  well_formed d ->
  well_formed W ->
  shape W = (S (ncols d), S nh) ->
  Scratch.loop_body (np_insert_col d (Fin 1)) (nrows d) (ncols d) nh lr ep
    (W, tr) w =
  (Ok (CD1.updated_weights (ncols d) nh d W (np_random w) lr,
       {| Scratch.Ens :=
            Scratch.Ens tr ++ [Scratch.log_activations (ncols d) nh d W];
          Scratch.Ers :=
            Scratch.Ers tr ++ [CD1.error (ncols d) nh d W (np_random w)];
          Scratch.E11s :=
            Scratch.E11s tr ++
            [Scratch.energy (ncols d) nh d W (np_random w)
               (CD1.updated (ncols d) nh d W (np_random w) lr)];
          Scratch.E01s :=
            Scratch.E01s tr ++
            [Scratch.energy (ncols d) nh d W (np_random w) (get W)] |}),
   {| heap := heap w;
      np_random := Scratch.after_third (ncols d) nh d (np_random w);
      stdout := stdout w |}).
Proof.
  intros Hd HW Hsh. unfold shape in Hsh. injection Hsh as Hr Hc.
  rewrite (np_insert_col_augmented d Hd).
  rewrite <- (tabulate_get W HW) at 1. rewrite Hr, Hc.
  apply loop_body_tabulated.
Qed.

Lemma after_third_at nv nh d g k :
  Scratch.after_third nv nh d g k =
  g (nrows d * (S nh + S nv + S nh) + k)%nat.
Proof.
  unfold Scratch.after_third, Scratch.after_second, Scratch.after_first, advance.
  f_equal. lia.
Qed.

Lemma for_range_loop_body nh d lr n : forall start W tr w,
  well_formed d ->
  well_formed W ->
  shape W = (S (ncols d), S nh) ->
  exists W' tr' g',
    for_range start n
      (Scratch.loop_body (np_insert_col d (Fin 1)) (nrows d) (ncols d) nh lr)
      (W, tr) w =
    (Ok (W', tr'), {| heap := heap w; np_random := g'; stdout := stdout w |}) /\
    well_formed W' /\
    shape W' = (S (ncols d), S nh) /\
    length (Scratch.Ens tr') = (length (Scratch.Ens tr) + n)%nat /\
    length (Scratch.Ers tr') = (length (Scratch.Ers tr) + n)%nat /\
    length (Scratch.E11s tr') = (length (Scratch.E11s tr) + n)%nat /\
    length (Scratch.E01s tr') = (length (Scratch.E01s tr) + n)%nat /\
    forall k,
      g' k =
      np_random w (n * (nrows d * (S nh + S (ncols d) + S nh)) + k)%nat.
Proof.
  induction n as [|n IH]; intros start W tr w Hd HW Hsh.
  - exists W, tr, (np_random w). cbn [for_range]. unfold ret.
    destruct w; cbn [heap np_random stdout].
    repeat split; try assumption; try lia.
  - cbn [for_range]. unfold bind at 1.
    rewrite (loop_body_run nh d W lr start tr w Hd HW Hsh).
    match goal with
    | |- context [for_range _ _ _ (?W1, ?t1) ?w1] =>
        destruct (IH (S start) W1 t1 w1 Hd) as
          (W' & tr' & g' & Hrun & HW' & Hsh' & H1 & H2 & H3 & H4 & Hg)
    end.
    + apply well_formed_tabulate.
    + unfold shape, CD1.updated_weights.
      now rewrite nrows_tabulate, ncols_tabulate.
    + exists W', tr', g'. rewrite Hrun.
      cbn [heap np_random stdout Scratch.Ens Scratch.Ers Scratch.E11s
           Scratch.E01s] in *.
      rewrite length_app in H1, H2, H3, H4. cbn [length] in *.
      repeat split; try assumption; try lia.
      intros k. rewrite Hg, after_third_at. f_equal. lia.
Qed.

Lemma broadcast1_same_length f u v :
  length u = length v ->
  broadcast1 f u v =
  Ok (vtabulate (length u) (fun i => f (vget u i) (vget v i))).
Proof.
  intros H.
  rewrite <- (vtabulate_vget u) at 1. rewrite <- (vtabulate_vget v) at 1.
  rewrite <- H. apply broadcast1_vtabulate.
Qed.

Lemma vget_tl (v : vec) i : vget (tl v) i = vget v (S i).
Proof. unfold vget. destruct v; [now destruct i | reflexivity]. Qed.

Lemma vget_removelast (v : vec) i :
  (S i < length v)%nat -> vget (removelast v) i = vget v i.
Proof.
  intros H. unfold vget. rewrite removelast_firstn_len.
  apply nth_take. lia.
Qed.

Lemma well_formed_drop_last_two a :
  well_formed a -> well_formed (Scratch.drop_last_two a).
Proof. intros H. unfold well_formed, Scratch.drop_last_two. now apply Forall_take. Qed.

Lemma nrows_drop_last_two a :
  nrows (Scratch.drop_last_two a) = (nrows a - 2)%nat.
Proof.
  unfold nrows, Scratch.drop_last_two; cbn [rows].
  apply length_take_le. lia.
Qed.

Lemma cell7_run data_input max_ep lr nh w :
  well_formed data_input ->
  exists W t g',
    Scratch.cell7 data_input max_ep lr nh w =
    (Ok (W, t), {| heap := heap w; np_random := g'; stdout := stdout w |}) /\
    well_formed W /\
    shape W = (S (ncols data_input), S nh) /\
    length (Scratch.Ens t) = max_ep /\
    length (Scratch.Ers t) = max_ep /\
    length (Scratch.E11s t) = max_ep /\
    length (Scratch.E01s t) = max_ep /\
    forall k,
      g' k =
      np_random w
        (ncols data_input * nh +
         max_ep * ((nrows data_input - 2) *
                   (S nh + S (ncols data_input) + S nh)) + k)%nat.
Proof.
  intros Hd. unfold Scratch.cell7.
  rewrite bind_rand. unfold draw2.
  rewrite np_insert_row_tabulate, np_insert_col_tabulate.
  match goal with
  | |- context [for_range _ _ _ (?W0, ?t0) ?w0] =>
      destruct (for_range_loop_body nh (Scratch.drop_last_two data_input) lr
                  max_ep 0 W0 t0 w0) as
        (W & t & g' & Hrun & HW & Hsh & H1 & H2 & H3 & H4 & Hg)
  end.
  - now apply well_formed_drop_last_two.
  - apply well_formed_tabulate.
  - unfold shape. now rewrite nrows_tabulate, ncols_tabulate.
  - exists W, t, g'. rewrite Hrun.
    cbn [heap np_random stdout Scratch.Ens Scratch.Ers Scratch.E11s
         Scratch.E01s length] in *.
    repeat split; try assumption.
    intros k. rewrite Hg, nrows_drop_last_two. unfold advance.
    cbn [Scratch.drop_last_two ncols]. f_equal. lia.
Qed.

(** X14.  The two cells of the script run to completion on any data set:
    nothing is raised, not even when fewer than three examples are given and
    none is left; [W] keeps its shape, each of the four lists gets one entry
    per pass, [Qs] and [Ws] have one entry less and pair the entries as the
    slices say; the store and the output are not touched, and [np.random] has
    moved on by the size of the first weights and by three blocks per pass. *)
Theorem scratch_cells_run data_input max_ep learn_rate num_hid w :
  well_formed data_input ->
  exists W t Qs Ws w',
    Scratch.cells data_input max_ep learn_rate num_hid w =
    (Ok (W, t, (Qs, Ws)), w') /\
    well_formed W /\
    shape W = (S (ncols data_input), S num_hid) /\
    length (Scratch.Ens t) = max_ep /\
    length (Scratch.Ers t) = max_ep /\
    length (Scratch.E11s t) = max_ep /\
    length (Scratch.E01s t) = max_ep /\
    length Qs = (max_ep - 1)%nat /\
    length Ws = (max_ep - 1)%nat /\
    (forall i, (S i < max_ep)%nat ->
       vget Qs i =
       fsub (vget (Scratch.E11s t) (S i)) (vget (Scratch.E01s t) (S i)) /\
       vget Ws i =
       fsub (vget (Scratch.E01s t) (S i)) (vget (Scratch.E11s t) i)) /\
    heap w' = heap w /\
    stdout w' = stdout w /\
    forall k,
      np_random w' k =
      np_random w
        (ncols data_input * num_hid +
         max_ep * ((nrows data_input - 2) *
                   (S num_hid + S (ncols data_input) + S num_hid)) + k)%nat.
Proof.
  intros Hd.
  destruct (cell7_run data_input max_ep learn_rate num_hid w Hd) as
    (W & t & g' & Hrun & HW & Hsh & H1 & H2 & H3 & H4 & Hg).
  unfold Scratch.cells, bind at 1. rewrite Hrun.
  rewrite bind_lift. unfold Scratch.cell8. cbn [snd].
  rewrite (broadcast1_same_length fsub (tl (Scratch.E11s t)) (tl (Scratch.E01s t)))
    by (rewrite !length_tl; lia).
  cbn [obind].
  rewrite (broadcast1_same_length fsub (tl (Scratch.E01s t))
             (removelast (Scratch.E11s t)))
    by (rewrite removelast_firstn_len, length_tl, length_take_le; lia).
  cbn [obind]. unfold ret.
  do 5 eexists. split; [reflexivity |].
  cbn [heap np_random stdout].
  rewrite !length_vtabulate, !length_tl, H3, H4.
  repeat split; try assumption; try reflexivity.
  - rewrite vget_vtabulate by lia. now rewrite !vget_tl.
  - rewrite vget_vtabulate by lia.
    rewrite vget_tl, vget_removelast by lia. reflexivity.
Qed.

Lemma data_input_well_formed : well_formed Scratch.data_input.
Proof. unfold well_formed. cbn. repeat constructor. Qed.

Lemma scratch_cells_run_witness :
  exists W t Qs Ws w',
    Scratch.cells Scratch.data_input Scratch.max_ep Scratch.learn_rate
      Scratch.num_hid Example.world0 = (Ok (W, t, (Qs, Ws)), w') /\
    shape W = (7%nat, 5%nat) /\
    length Qs = 999%nat.
Proof.
  destruct (scratch_cells_run Scratch.data_input Scratch.max_ep
              Scratch.learn_rate Scratch.num_hid Example.world0
              data_input_well_formed)
    as (W & t & Qs & Ws & w' & Hrun & _ & Hsh & _ & _ & _ & _ & HQ & _).
  exists W, t, Qs, Ws, w'. repeat split; assumption.
Defined.

(** X15.  One pass of the script and one epoch of [train] are the same
    update: started from the same weights, the same data and the same state
    of [np.random], the pass leaves in [W] the matrix that
    [train(data, max_epochs = 1)] stores in [self.weights], and appends to
    [Ers] the error that [train] prints.  The script does not touch the store
    or the output, and draws two blocks of numbers more than [train]. *)
Theorem scratch_pass_agrees_with_train self data r W d lr ep tr w :
  rbm_at w self r W ->
  array_at w data d ->
  ncols d = num_visible r ->
  exists W' tr' e w1 w2,
    Scratch.loop_body (np_insert_col d (Fin 1)) (nrows d) (num_visible r)
      (num_hidden r) lr ep (W, tr) w = (Ok (W', tr'), w1) /\
    train self data 1 lr w = (Ok tt, w2) /\
    heap w2 !! weights r = Some (Array W') /\
    Scratch.Ers tr' = Scratch.Ers tr ++ [e] /\
    stdout w2 = stdout w ++ (if debug_print r then [(0%nat, e)] else []) /\
    heap w1 = heap w /\
    stdout w1 = stdout w /\
    forall k,
      np_random w1 k =
      np_random w2
        (nrows d * S (num_visible r) + nrows d * S (num_hidden r) + k)%nat.
Proof.
  intros HW [Hd Hwf] Hdc.
  pose proof HW as (Hs & Hw & HWwf & Hr & Hc).
  rewrite (train_run self data r W d 1 lr w HW (conj Hd Hwf) Hdc).
  rewrite <- Hdc.
  rewrite (loop_body_run (num_hidden r) d W lr ep tr w Hwf HWwf)
    by (unfold shape; now rewrite Hr, Hc, Hdc).
  do 5 eexists. split; [reflexivity |]. split; [reflexivity |].
  cbn [heap np_random stdout Scratch.Ers].
  change (Z.to_nat 1) with 1%nat. cbn [CD1.epochs CD1.log fst snd].
  rewrite lookup_insert_eq.
  split; [reflexivity |]. split; [reflexivity |].
  split; [now destruct (debug_print r) |].
  split; [reflexivity |]. split; [reflexivity |].
  intros k. rewrite after_third_at.
  unfold CD1.generator_after, CD1.num_examples, advance. f_equal. lia.
Qed.

Lemma scratch_pass_agrees_with_train_witness :
  exists W' tr' w1 w2,
    Scratch.loop_body (np_insert_col Example.data (Fin 1)) 2 1 1 (Fin (1 / 10)) 0
      (Example.W0,
       {| Scratch.Ens := []; Scratch.Ers := []; Scratch.E11s := [];
          Scratch.E01s := [] |})
      Example.world0 = (Ok (W', tr'), w1) /\
    train Example.self Example.data_ref 1 (Fin (1 / 10)) Example.world0 =
    (Ok tt, w2) /\
    heap w2 !! Example.weights_ref = Some (Array W').
Proof.
  destruct (scratch_pass_agrees_with_train Example.self Example.data_ref
              Example.rbm Example.W0 Example.data (Fin (1 / 10)) 0
              {| Scratch.Ens := []; Scratch.Ers := []; Scratch.E11s := [];
                 Scratch.E01s := [] |}
              Example.world0 example_rbm_at example_data_at eq_refl)
    as (W' & tr' & e & w1 & w2 & Hrun & Htrain & Hheap & _).
  exists W', tr', w1, w2. auto.
Defined.

(** ** [Energy] *)

(** X16.  [Energy(v, h, W)] needs [v] as wide as [W] is high and [h] as wide
    as [W] is wide, and raises ValueError otherwise; its result has one entry
    for every pair of a row of [v] and a row of [h], also for the pairs of
    different examples. *)
Theorem Energy_shape v h W :
  match Energy v h W with
  | Ok e =>
      ncols v = nrows W /\ ncols W = ncols h /\
      shape e = (nrows v, nrows h) /\ well_formed e
  | Raise x =>
      x = ValueError /\ (ncols v <> nrows W \/ ncols W <> ncols h)
  end.
Proof.
  unfold Energy, np_dot.
  destruct (Nat.eqb_spec (ncols v) (nrows W)) as [E1|E1]; cbn [obind].
  - rewrite ncols_tabulate. unfold np_T at 1. rewrite nrows_tabulate.
    destruct (Nat.eqb_spec (ncols W) (ncols h)) as [E2|E2].
    + repeat split; try assumption.
      * unfold shape, np_T.
        now rewrite !nrows_tabulate, !ncols_tabulate.
      * apply well_formed_tabulate.
    + split; [reflexivity |]. now right.
  - split; [reflexivity |]. now left.
Qed.

(** *** Sums of finite entries *)

Lemma rsum_O a : rsum 0 a = 0.
Proof. reflexivity. Qed.

Lemma rsum_ext n a b :
  (forall k, (k < n)%nat -> a k = b k) -> rsum n a = rsum n b.
Proof.
  induction n as [|n IH]; intros H; [reflexivity |].
  rewrite !rsum_S, IH, H by (intros; auto with arith). reflexivity.
Qed.

Lemma rsum_plus n a b :
  rsum n (fun k => a k + b k) = rsum n a + rsum n b.
Proof.
  induction n as [|n IH]; [rewrite !rsum_O; lra |].
  rewrite !rsum_S, IH. lra.
Qed.

Lemma rsum_mult_r n a c : rsum n (fun k => a k * c) = rsum n a * c.
Proof.
  induction n as [|n IH]; [rewrite !rsum_O; lra |].
  rewrite !rsum_S, IH. lra.
Qed.

Lemma value_fadd x y :
  is_finite x -> is_finite y -> value (fadd x y) = value x + value y.
Proof.
  intros Hx Hy. apply is_finite_Fin in Hx, Hy.
  destruct Hx as [a ->], Hy as [b ->]. reflexivity.
Qed.

Lemma value_fmul x y :
  is_finite x -> is_finite y -> value (fmul x y) = value x * value y.
Proof.
  intros Hx Hy. apply is_finite_Fin in Hx, Hy.
  destruct Hx as [a ->], Hy as [b ->]. reflexivity.
Qed.

Lemma value_fsum n f :
  (forall k, (k < n)%nat -> is_finite (f k)) ->
  value (fsum n f) = rsum n (fun k => value (f k)).
Proof. intros H. now rewrite fsum_value. Qed.

Lemma fold_fadd_vtabulate c g : forall a,
  (forall j, (j < c)%nat -> is_finite (g j)) ->
  fold_left fadd (vtabulate c g) (Fin a) =
  Fin (a + rsum c (fun j => value (g j))).
Proof.
  unfold vtabulate.
  induction c as [|c IH]; intros a H.
  - cbn [seq map fold_left]. rewrite rsum_O. f_equal. lra.
  - rewrite seq_S, map_app, fold_left_app, IH by (intros; apply H; lia).
    cbn [map fold_left Nat.add].
    destruct (is_finite_Fin (g c)) as [b Hb]; [apply H; lia |].
    rewrite rsum_S, Hb. cbn [fadd value]. f_equal. lra.
Qed.

Lemma np_sum_tabulate r c f :
  (forall i j, (i < r)%nat -> (j < c)%nat -> is_finite (f i j)) ->
  np_sum (tabulate r c f) =
  Fin (rsum r (fun i => rsum c (fun j => value (f i j)))).
Proof.
  intros H. unfold np_sum, tabulate; cbn [rows].
  assert (G : forall a,
            fold_left fadd
              (concat (map (fun i => vtabulate c (f i)) (seq 0 r))) (Fin a) =
            Fin (a + rsum r (fun i => rsum c (fun j => value (f i j))))).
  { induction r as [|r IH]; intros a.
    - cbn [seq map concat fold_left]. rewrite rsum_O. f_equal. lra.
    - rewrite seq_S, map_app, concat_app, fold_left_app.
      rewrite IH by (intros; apply H; lia).
      cbn [map concat Nat.add]. rewrite app_nil_r.
      rewrite fold_fadd_vtabulate by (intros; apply H; lia).
      rewrite rsum_S. f_equal. lra. }
  rewrite G. f_equal. lra.
Qed.

(** The sum of all entries of [Energy], for finite entries. *)
Lemma np_sum_Energy_tabulate n m p q V H A :
  (forall k i, is_finite (V k i)) ->
  (forall l j, is_finite (H l j)) ->
  (forall i j, is_finite (A i j)) ->
  np_sum (tabulate n m (fun k l =>
    fsum q (fun j => fmul (fsum p (fun i => fmul (V k i) (A i j))) (H l j)))) =
  Fin (bilinear n m p q (fun k i => value (V k i)) (fun l j => value (H l j))
         (fun i j => value (A i j))).
Proof.
  intros HV HH HA.
  rewrite np_sum_tabulate by (intros; auto 6 with finite).
  f_equal. unfold bilinear.
  apply rsum_ext. intros k _. apply rsum_ext. intros l _.
  rewrite value_fsum by (intros; auto 6 with finite).
  apply rsum_ext. intros j _.
  rewrite value_fmul by (auto 6 with finite).
  rewrite value_fsum by (intros; auto 6 with finite).
  f_equal. apply rsum_ext. intros i _.
  now rewrite value_fmul by auto.
Qed.

Lemma bilinear_plus n m p q V H A B :
  bilinear n m p q V H (fun i j => A i j + B i j) =
  bilinear n m p q V H A + bilinear n m p q V H B.
Proof.
  unfold bilinear. rewrite <- rsum_plus. apply rsum_ext. intros k _.
  rewrite <- rsum_plus. apply rsum_ext. intros l _.
  rewrite <- rsum_plus. apply rsum_ext. intros j _.
  rewrite <- Rmult_plus_distr_r. f_equal.
  rewrite <- rsum_plus. apply rsum_ext. intros i _. lra.
Qed.

Lemma bilinear_ext n m p q V H A B :
  (forall i j, A i j = B i j) ->
  bilinear n m p q V H A = bilinear n m p q V H B.
Proof.
  intros E. unfold bilinear.
  apply rsum_ext. intros k _. apply rsum_ext. intros l _.
  apply rsum_ext. intros j _. f_equal.
  apply rsum_ext. intros i _. now rewrite E.
Qed.

(** The sum of [Energy] is additive in the weights. *)
Lemma np_sum_Energy_additive n m p q V H A B :
  (forall k i, is_finite (V k i)) ->
  (forall l j, is_finite (H l j)) ->
  (forall i j, is_finite (A i j)) ->
  (forall i j, is_finite (B i j)) ->
  np_sum (tabulate n m (fun k l =>
    fsum q (fun j =>
      fmul (fsum p (fun i => fmul (V k i) (fadd (A i j) (B i j)))) (H l j)))) =
  fadd
    (np_sum (tabulate n m (fun k l =>
       fsum q (fun j => fmul (fsum p (fun i => fmul (V k i) (A i j))) (H l j)))))
    (np_sum (tabulate n m (fun k l =>
       fsum q (fun j => fmul (fsum p (fun i => fmul (V k i) (B i j))) (H l j))))).
Proof.
  intros HV HH HA HB.
  rewrite (np_sum_Energy_tabulate n m p q V H (fun i j => fadd (A i j) (B i j)))
    by (intros; auto with finite).
  rewrite !np_sum_Energy_tabulate by assumption.
  cbn [fadd]. f_equal. rewrite <- bilinear_plus.
  apply bilinear_ext. intros i j. now apply value_fadd.
Qed.

Lemma tabulate_shape a r c :
  well_formed a -> shape a = (r, c) -> a = tabulate r c (get a).
Proof.
  intros Ha Hs. unfold shape in Hs. injection Hs as <- <-.
  symmetry. now apply tabulate_get.
Qed.

Lemma np_iadd_get a r c h :
  well_formed a -> shape a = (r, c) ->
  np_iadd a (tabulate r c h) =
  Ok (tabulate r c (fun i j => fadd (get a i j) (h i j))).
Proof.
  intros Ha Hs.
  transitivity (np_iadd (tabulate r c (get a)) (tabulate r c h)).
  - f_equal. now apply tabulate_shape.
  - apply np_iadd_tabulate.
Qed.

Lemma Energy_get n m p q V H a :
  well_formed a -> shape a = (p, q) ->
  Energy (tabulate n p V) (tabulate m q H) a =
  Ok (tabulate n m (fun k l =>
        fsum q (fun j =>
          fmul (fsum p (fun i => fmul (V k i) (get a i j))) (H l j)))).
Proof.
  intros Ha Hs.
  transitivity (Energy (tabulate n p V) (tabulate m q H) (tabulate p q (get a))).
  - f_equal. now apply tabulate_shape.
  - apply Energy_tabulate.
Qed.

(** X17.  For arrays of matching shapes, [Energy(v, h, W)], [W += D] and
    [Energy(v, h, D)] all succeed.  In exact arithmetic, for finite entries,
    the sum of [Energy] is additive in the weights: after [W += D],
    [np.sum(Energy(v, h, W))] has grown by exactly [np.sum(Energy(v, h, D))],
    and the sums are finite.  (Numbers are exact here: in binary64 the two
    sides agree up to rounding only.) *)
Theorem Energy_additive v h W D :
  well_formed v -> well_formed h -> well_formed W -> well_formed D ->
  ncols v = nrows W -> ncols h = ncols W -> shape D = shape W ->
  exists W' e0 e1 eD,
    np_iadd W D = Ok W' /\
    Energy v h W = Ok e0 /\
    Energy v h W' = Ok e1 /\
    Energy v h D = Ok eD /\
    (all_finite v -> all_finite h -> all_finite W -> all_finite D ->
     np_sum e1 = fadd (np_sum e0) (np_sum eD) /\
     is_finite (np_sum e0) /\ is_finite (np_sum eD)).
Proof.
  intros Hv Hh HW HD Hvw Hhw HDW.
  rewrite (tabulate_shape v (nrows v) (nrows W) Hv)
    by (unfold shape; now rewrite Hvw).
  rewrite (tabulate_shape h (nrows h) (ncols W) Hh)
    by (unfold shape; now rewrite Hhw).
  rewrite (tabulate_shape D (nrows W) (ncols W) HD) by exact HDW.
  do 4 eexists.
  split; [now apply np_iadd_get |].
  split; [now apply Energy_get |].
  split; [apply Energy_tabulate |].
  split; [apply Energy_tabulate |].
  rewrite <- (tabulate_shape v (nrows v) (nrows W) Hv)
    by (unfold shape; now rewrite Hvw).
  rewrite <- (tabulate_shape h (nrows h) (ncols W) Hh)
    by (unfold shape; now rewrite Hhw).
  rewrite <- (tabulate_shape D (nrows W) (ncols W) HD) by exact HDW.
  intros Fv Fh FW FD. split.
  - apply np_sum_Energy_additive; intros; now apply all_finite_get.
  - rewrite !np_sum_Energy_tabulate by (intros; now apply all_finite_get).
    split; exact I.
Qed.

Lemma example_W0_well_formed : well_formed Example.W0.
Proof. unfold well_formed. cbn. repeat constructor. Qed.

Lemma Energy_additive_witness :
  exists W' e0 e1 eD,
    np_iadd Example.W0 Example.W0 = Ok W' /\
    Energy Example.W0 Example.W0 Example.W0 = Ok e0 /\
    Energy Example.W0 Example.W0 W' = Ok e1 /\
    Energy Example.W0 Example.W0 Example.W0 = Ok eD /\
    np_sum e1 = fadd (np_sum e0) (np_sum eD).
Proof.
  destruct (Energy_additive Example.W0 Example.W0 Example.W0 Example.W0)
    as (W' & e0 & e1 & eD & H1 & H2 & H3 & H4 & Hexact);
    try exact example_W0_well_formed; try reflexivity.
  destruct (Hexact example_W0_finite example_W0_finite example_W0_finite
              example_W0_finite) as (H5 & _).
  exists W', e0, e1, eD. auto.
Defined.

Lemma is_finite_n_v_state nv nh d W g k i :
  is_finite (Scratch.n_v_state nv nh d W g k i).
Proof. apply is_finite_of_bool. Qed.

Lemma is_finite_n_h_state nv nh d W g k j :
  is_finite (Scratch.n_h_state nv nh d W g k j).
Proof. apply is_finite_of_bool. Qed.

(** X18.  The heat of a pass.  [E01] is the sum of [Energy] of the sampled
    states of the reconstruction under the weights before the update, and
    [E11] the sum for the same states under the weights after it, which are
    the old weights plus the increment [learn_rate * (P_aso - n_aso) / num_exp];
    the states are binary.  In exact arithmetic, with finite data, weights and
    rate and at least one example, the two sums are finite and differ by the
    energy of the increment alone:
    [E11 = E01 + np.sum(Energy(states, increment))], which is then the entry
    [E11 - E01] of [Qs].  (Numbers are exact here: in binary64 this equality
    holds up to rounding only, and an overflow can make the sums infinite.) *)
Theorem scratch_heat nh d W lr ep tr w :
  well_formed d ->
  well_formed W ->
  shape W = (S (ncols d), S nh) ->
  let g := np_random w in
  let vs := Scratch.visible_states (ncols d) nh d W g in
  let hs := Scratch.hidden_states (ncols d) nh d W g in
  let dW := Scratch.increment (ncols d) nh d W g lr in
  exists W' tr' w' e0 e1 eD,
    Scratch.loop_body (np_insert_col d (Fin 1)) (nrows d) (ncols d) nh lr ep
      (W, tr) w = (Ok (W', tr'), w') /\
    np_iadd W dW = Ok W' /\
    Energy vs hs W = Ok e0 /\
    Energy vs hs W' = Ok e1 /\
    Energy vs hs dW = Ok eD /\
    Scratch.E01s tr' = Scratch.E01s tr ++ [np_sum e0] /\
    Scratch.E11s tr' = Scratch.E11s tr ++ [np_sum e1] /\
    all_binary vs /\ all_binary hs /\
    (all_finite d -> all_finite W -> is_finite lr -> (0 < nrows d)%nat ->
     np_sum e1 = fadd (np_sum e0) (np_sum eD) /\
     is_finite (np_sum e0) /\ is_finite (np_sum e1)).
Proof.
  intros Hd HW Hsh g vs hs dW.
  do 6 eexists.
  split; [now apply loop_body_run |].
  split; [unfold dW, Scratch.increment; now apply np_iadd_get |].
  split; [unfold vs, hs, Scratch.visible_states, Scratch.hidden_states;
          now apply Energy_get |].
  split; [unfold vs, hs, Scratch.visible_states, Scratch.hidden_states,
            CD1.updated_weights; apply Energy_tabulate |].
  split; [unfold vs, hs, dW, Scratch.visible_states, Scratch.hidden_states,
            Scratch.increment; apply Energy_tabulate |].
  split; [reflexivity |]. split; [reflexivity |].
  split; [apply all_binary_tabulate; intros; apply is_binary_of_bool |].
  split; [apply all_binary_tabulate; intros; apply is_binary_of_bool |].
  intros Fd FW Hlr HN.
  assert (Finc : forall i j,
            is_finite
              (fmul lr
                 (fdiv (fsub (CD1.pos_associations (ncols d) d W i j)
                             (CD1.neg_associations (ncols d) nh d W g i j))
                       (of_nat (nrows d))))).
  { intros i j. apply is_finite_fmul; [exact Hlr |].
    apply is_finite_fdiv_nat; [| exact HN].
    now apply is_finite_associations. }
  split; [| split].
  - unfold CD1.updated, CD1.num_examples. fold g.
    apply np_sum_Energy_additive; intros;
      auto using is_finite_n_v_state, is_finite_n_h_state, all_finite_get.
  - rewrite np_sum_Energy_tabulate; [exact I | | |]; intros;
      auto using is_finite_n_v_state, is_finite_n_h_state, all_finite_get.
  - rewrite np_sum_Energy_tabulate; [exact I | | |]; intros;
      auto using is_finite_n_v_state, is_finite_n_h_state.
    unfold CD1.updated. apply is_finite_fadd; [now apply all_finite_get |].
    apply Finc.
Qed.

Lemma example_data_well_formed : well_formed Example.data.
Proof. unfold well_formed. cbn. repeat constructor. Qed.

Lemma scratch_heat_witness :
  exists W' tr' w' e0 e1 eD,
    Scratch.loop_body (np_insert_col Example.data (Fin 1)) 2 1 1 (Fin (1 / 10)) 0
      (Example.W0,
       {| Scratch.Ens := []; Scratch.Ers := []; Scratch.E11s := [];
          Scratch.E01s := [] |})
      Example.world0 = (Ok (W', tr'), w') /\
    Scratch.E01s tr' = [np_sum e0] /\
    Scratch.E11s tr' = [np_sum e1] /\
    np_sum e1 = fadd (np_sum e0) (np_sum eD).
Proof.
  destruct (scratch_heat 1 Example.data Example.W0 (Fin (1 / 10)) 0
              {| Scratch.Ens := []; Scratch.Ers := []; Scratch.E11s := [];
                 Scratch.E01s := [] |}
              Example.world0 example_data_well_formed
              example_W0_well_formed eq_refl)
    as (W' & tr' & w' & e0 & e1 & eD & Hrun & _ & _ & _ & _ & H0 & H1 & _ & _
        & Hexact).
  destruct (Hexact example_data_finite example_W0_finite I) as (Hsum & _).
  - cbn. lia.
  - exists W', tr', w', e0, e1, eD. auto.
Defined.

(** ** The entry of [Ens] *)

Lemma in_tabulate r c f x :
  In x (concat (rows (tabulate r c f))) ->
  exists i j, (i < r)%nat /\ (j < c)%nat /\ x = f i j.
Proof.
  unfold tabulate, vtabulate; cbn [rows]. intros H.
  apply in_concat in H. destruct H as (row & Hrow & Hx).
  apply in_map_iff in Hrow. destruct Hrow as (i & <- & Hi).
  apply in_map_iff in Hx. destruct Hx as (j & <- & Hj).
  apply in_seq in Hi, Hj. exists i, j. repeat split; lia.
Qed.

Lemma fold_fadd_no_nan l : forall acc,
  (acc = NInf \/ is_finite acc) ->
  (forall x, In x l -> x = NInf \/ is_finite x) ->
  fold_left fadd l acc = NInf \/ is_finite (fold_left fadd l acc).
Proof.
  induction l as [|x l IH]; intros acc Hacc Hl; [exact Hacc |].
  cbn [fold_left]. apply IH.
  - destruct (Hl x (or_introl eq_refl)) as [-> | Hx], Hacc as [-> | Ha].
    + now left.
    + apply is_finite_Fin in Ha. destruct Ha as [a ->]. now left.
    + apply is_finite_Fin in Hx. destruct Hx as [b ->]. now left.
    + right. now apply is_finite_fadd.
  - intros y Hy. apply Hl. now right.
Qed.

Lemma np_log_finite x :
  is_finite x ->
  match np_log x with
  | NaN => True
  | PInf => False
  | NInf => True
  | Fin _ => True
  end.
Proof.
  intros H. apply is_finite_Fin in H. destruct H as [r ->].
  unfold np_log. now destruct (Rsign r).
Qed.

Lemma log_activations_no_nan nv nh d W :
  (forall k j, (k < nrows d)%nat -> (j < S nh)%nat ->
     is_finite (fsum (S nv) (fun m =>
                  fmul (CD1.augmented d k m) (get W m j)))) ->
  Scratch.log_activations nv nh d W = NInf \/
  is_finite (Scratch.log_activations nv nh d W).
Proof.
  intros Fact. unfold Scratch.log_activations, np_nansum.
  apply fold_fadd_no_nan; [now right |].
  intros x Hx. apply in_map_iff in Hx. destruct Hx as (y & <- & Hy).
  apply in_tabulate in Hy. destruct Hy as (k & j & Hk & Hj & ->).
  match goal with
  | |- context [np_log ?a] =>
      assert (Ha : is_finite a);
      [| pose proof (np_log_finite a Ha) as Hlog; destruct (np_log a)]
  end.
  - apply is_finite_fadd; [| exact I]. now apply Fact.
  - now right.
  - contradiction.
  - now left.
  - now right.
Qed.

Lemma all_finite_tabulate_inv r c f :
  all_finite (tabulate r c f) ->
  forall i j, (i < r)%nat -> (j < c)%nat -> is_finite (f i j).
Proof.
  intros H i j Hi Hj. rewrite <- (get_tabulate r c f i j Hi Hj).
  now apply all_finite_get.
Qed.

(** The activations of a pass, entry by entry. *)
Lemma P_h_act_tabulated nh d W P_h_act :
  well_formed d -> well_formed W ->
  shape W = (S (ncols d), S nh) ->
  np_dot (np_insert_col d (Fin 1)) W = Ok P_h_act ->
  P_h_act =
  tabulate (nrows d) (S nh) (fun k j =>
    fsum (S (ncols d)) (fun m => fmul (CD1.augmented d k m) (get W m j))).
Proof.
  intros Hd HW Hsh Hdot.
  rewrite (np_insert_col_augmented d Hd) in Hdot.
  rewrite (tabulate_shape W _ _ HW Hsh) in Hdot.
  rewrite np_dot_tabulate in Hdot. now injection Hdot as <-.
Qed.

(** X19.  Whenever the activations [P_h_act = np.dot(data, W)] of a pass are
    all finite (as they are, short of an overflow, for finite data and
    weights), the number the pass appends to [Ens] is never NaN and never
    [+inf]: it is [-inf] or a finite number.  ([np.log] is taken of the
    activations and is NaN at a negative number; [np.nansum] counts such a
    cell as zero.  The sum itself is exact here.) *)
Theorem scratch_Ens_entry nh d W lr ep tr w P_h_act :
  well_formed d ->
  well_formed W ->
  shape W = (S (ncols d), S nh) ->
  np_dot (np_insert_col d (Fin 1)) W = Ok P_h_act ->
  all_finite P_h_act ->
  exists W' tr' w' en,
    Scratch.loop_body (np_insert_col d (Fin 1)) (nrows d) (ncols d) nh lr ep
      (W, tr) w = (Ok (W', tr'), w') /\
    Scratch.Ens tr' = Scratch.Ens tr ++ [en] /\
    (en = NInf \/ is_finite en).
Proof.
  intros Hd HW Hsh Hdot FP.
  rewrite (P_h_act_tabulated nh d W P_h_act Hd HW Hsh Hdot) in FP.
  do 4 eexists. split; [now apply loop_body_run |].
  split; [reflexivity |]. apply log_activations_no_nan.
  now apply all_finite_tabulate_inv.
Qed.

Lemma example_activations :
  exists P_h_act,
    np_dot (np_insert_col Example.data (Fin 1)) Example.W0 = Ok P_h_act /\
    all_finite P_h_act.
Proof.
  rewrite (np_insert_col_augmented _ example_data_well_formed).
  rewrite (tabulate_shape Example.W0 2 2 example_W0_well_formed eq_refl).
  change (ncols Example.data) with 1%nat.
  rewrite np_dot_tabulate. eexists. split; [reflexivity |].
  apply all_finite_tabulate. intros k j _ _.
  apply is_finite_fsum. intros m _.
  apply is_finite_fmul.
  - apply is_finite_augmented. exact example_data_finite.
  - apply all_finite_get. exact example_W0_finite.
Qed.

Lemma scratch_Ens_entry_witness :
  exists W' tr' w' en,
    Scratch.loop_body (np_insert_col Example.data (Fin 1)) 2 1 1 (Fin (1 / 10)) 0
      (Example.W0,
       {| Scratch.Ens := []; Scratch.Ers := []; Scratch.E11s := [];
          Scratch.E01s := [] |})
      Example.world0 = (Ok (W', tr'), w') /\
    Scratch.Ens tr' = [en] /\
    (en = NInf \/ is_finite en).
Proof.
  destruct example_activations as (P & Hdot & FP).
  destruct (scratch_Ens_entry 1 Example.data Example.W0 (Fin (1 / 10)) 0
              {| Scratch.Ens := []; Scratch.Ers := []; Scratch.E11s := [];
                 Scratch.E01s := [] |}
              Example.world0 P example_data_well_formed
              example_W0_well_formed eq_refl Hdot FP)
    as (W' & tr' & w' & en & Hrun & HEns & Hen).
  exists W', tr', w', en. auto.
Defined.
